(** * AnalogContext and AnalogFunction of aihwkit: a shallow embedding

    The development follows [aihwkit/optim/context.py] (the parameter
    context bound to an analog tile) and
    [aihwkit/simulator/tiles/functions.py] (the autograd function that
    dispatches forward and backward to the tile).

    Python objects live in a store: parameters and tiles are addressed by
    reference, so that the mutual binding between a context and its tile
    and the in-place re-labelling of a parameter are visible.  Methods are
    computations in a state-and-exception monad: the store survives a
    raised exception, as it does in Python. *)

From stdpp Require Import gmap list.
From Stdlib Require Import ZArith.

Set Default Proof Using "Type".

(** ** Tensors *)

Inductive torch_device := Cpu | Cuda (index : nat).
Inductive dtype := Float16 | Float32 | Float64.

#[global] Instance torch_device_eq_dec : EqDecision torch_device.
Proof. solve_decision. Defined.
#[global] Instance dtype_eq_dec : EqDecision dtype.
Proof. solve_decision. Defined.

(** Only the metadata of a tensor is interpreted; [t_data] stands for the
    raw contents, which no method of the two modules inspects. *)
Record Tensor := mkTensor {
  t_shape : list nat;
  t_dtype : dtype;
  t_device : torch_device;
  t_data : list Z
}.

#[global] Instance Tensor_eq_dec : EqDecision Tensor.
Proof. solve_decision. Defined.

(** [Tensor.to(device)] *)
Definition tensor_to_device (d : torch_device) (t : Tensor) : Tensor :=
  mkTensor (t_shape t) (t_dtype t) d (t_data t).

(** [Tensor.cpu()] *)
Definition tensor_cpu (t : Tensor) : Tensor := tensor_to_device Cpu t.

Definition tensor_to_dtype (k : dtype) (t : Tensor) : Tensor :=
  mkTensor (t_shape t) k (t_device t) (t_data t).

(** [torch.empty_like]: same shape, dtype and device; the contents are
    whatever the allocator leaves there, written [[]] here. *)
Definition empty_like (t : Tensor) : Tensor :=
  mkTensor (t_shape t) (t_dtype t) (t_device t) [].

(** Positional arguments of [Tensor.to] as far as [AnalogContext.to]
    tells them apart: a tensor, a dtype, or anything else, which is
    handed to [torch.device]. *)
Inductive to_arg :=
| ArgTensor (other : Tensor)
| ArgDtype (k : dtype)
| ArgDevice (d : torch_device).

Record to_kwargs := mkKwargs {
  kw_device : option torch_device;
  kw_dtype : option dtype
}.

Definition to_target_device (args : list to_arg) (kw : to_kwargs)
  : option torch_device :=
  match kw_device kw with
  | Some d => Some d
  | None =>
      match args with
      | ArgDevice d :: _ => Some d
      | ArgTensor o :: _ => Some (t_device o)
      | _ => None
      end
  end.

Definition to_target_dtype (args : list to_arg) (kw : to_kwargs)
  : option dtype :=
  match kw_dtype kw with
  | Some k => Some k
  | None =>
      match args with
      | ArgDtype k :: _ => Some k
      | ArgDevice _ :: ArgDtype k :: _ => Some k
      | ArgTensor o :: _ => Some (t_dtype o)
      | _ => None
      end
  end.

(** [Tensor.to] with its positional and keyword arguments *)
Definition tensor_to (args : list to_arg) (kw : to_kwargs) (t : Tensor)
  : Tensor :=
  let t1 := match to_target_device args kw with
            | Some d => tensor_to_device d t
            | None => t
            end in
  match to_target_dtype args kw with
  | Some k => tensor_to_dtype k t1
  | None => t1
  end.

(** ** Objects of the store *)

(** [torch.nn.Parameter] *)
Record NnParameter := mkParameter {
  p_data : Tensor;
  p_requires_grad : bool
}.

(** [AnalogContext(Parameter)]: the two inherited fields and the
    attributes assigned in [__init__]. *)
Record AnalogContext := mkContext {
  data : Tensor;
  requires_grad : bool;
  analog_tile : option nat;
  use_torch_update : bool;
  use_indexed : bool;
  analog_input : list Tensor;
  analog_grad_output : list Tensor
}.

(** The class of a parameter object is part of its state:
    [parameter.__class__ = cls] changes it in place. *)
Inductive Obj :=
| OParameter (p : NnParameter)
| OContext (x : AnalogContext).

Record RuntimeConfig := mkRuntime {
  offload_input : bool;
  offload_gradient : bool
}.

(** Calls received by a tile, in the order of arrival. *)
Inductive TileCall :=
| CEnsureSharedWeights (w : Tensor)
| CJointForward (x : Tensor) (is_test : bool)
| CJointForwardIndexed (x : Tensor) (is_test : bool)
| CBackward (g : Tensor)
| CBackwardIndexed (g : Tensor)
| CSetDeltaWeights (buf : Tensor)
| CUpdate (x g : Tensor)
| CUpdateIndexed (x g : Tensor)
| CResetDeltaWeights
| CCuda (dev : option nat)
| CCpu.

(** The tile wrapper, as far as the context and the autograd function
    touch it. *)
Record Tile := mkTile {
  device : torch_device;
  tile_weights : Tensor;
  analog_ctx : option nat;
  runtime : RuntimeConfig;
  tile_shared : option Tensor;
  tile_delta : option Tensor;
  calls : list TileCall
}.

Definition is_cuda (t : Tile) : bool :=
  match device t with Cuda _ => true | Cpu => false end.

Record Store := mkStore {
  objs : gmap nat Obj;
  tiles : gmap nat Tile
}.

(** The autograd call object [ctx] that [forward] fills and [backward]
    reads. *)
Record CallState := mkCall {
  cs_analog_ctx : nat;
  cs_analog_tile : nat;
  cs_shared_weights : option Tensor;
  cs_saved_analog_tensors : list Tensor;
  cs_saved_tensors : list Tensor
}.

(** ** The monad *)

Inductive PyError :=
| AttributeError | TypeError | IndexError | RuntimeError | InvalidReference.

Inductive Res (A : Type) :=
| Ok (a : A)
| Raise (e : PyError).
Arguments Ok {A} a.
Arguments Raise {A} e.

Definition M (A : Type) : Type := Store -> Res A * Store.

Definition ret {A} (a : A) : M A := fun st => (Ok a, st).
Definition raise {A} (e : PyError) : M A := fun st => (Raise e, st).
Definition bind {A B} (m : M A) (f : A -> M B) : M B :=
  fun st =>
    match m st with
    | (Ok a, st') => f a st'
    | (Raise e, st') => (Raise e, st')
    end.

Declare Scope py_scope.
Delimit Scope py_scope with py.
Notation "x <- m ;; k" := (bind m (fun x => k))
  (at level 100, m at next level, right associativity) : py_scope.
Notation "m ;; k" := (bind m (fun _ => k))
  (at level 100, right associativity) : py_scope.
Open Scope py_scope.

(** Final store and outcome of a computation. *)
Definition exec {A} (m : M A) (st : Store) : Store := snd (m st).
Definition eval {A} (m : M A) (st : Store) : Res A := fst (m st).

(** ** Store access *)

Definition load_obj (r : nat) : M Obj := fun st =>
  match objs st !! r with
  | Some o => (Ok o, st)
  | None => (Raise InvalidReference, st)
  end.

(** Reading an attribute of a context through a reference; a plain
    parameter has none of them. *)
Definition load_context (r : nat) : M AnalogContext := fun st =>
  match objs st !! r with
  | Some (OContext x) => (Ok x, st)
  | Some (OParameter _) => (Raise AttributeError, st)
  | None => (Raise InvalidReference, st)
  end.

Definition store_obj (r : nat) (o : Obj) : M unit := fun st =>
  (Ok tt, mkStore (<[r := o]> (objs st)) (tiles st)).

Definition update_context (r : nat) (f : AnalogContext -> AnalogContext)
  : M unit :=
  x <- load_context r ;; store_obj r (OContext (f x)).

Definition alloc_obj (o : Obj) : M nat := fun st =>
  let r := fresh (dom (objs st)) in
  (Ok r, mkStore (<[r := o]> (objs st)) (tiles st)).

Definition load_tile (t : nat) : M Tile := fun st =>
  match tiles st !! t with
  | Some ti => (Ok ti, st)
  | None => (Raise InvalidReference, st)
  end.

Definition update_tile (t : nat) (f : Tile -> Tile) : M unit := fun st =>
  match tiles st !! t with
  | Some ti => (Ok tt, mkStore (objs st) (<[t := f ti]> (tiles st)))
  | None => (Raise InvalidReference, st)
  end.

(** Attribute assignments on a context. *)
Definition set_data_attr (v : Tensor) (x : AnalogContext) :=
  mkContext v (requires_grad x) (analog_tile x) (use_torch_update x)
    (use_indexed x) (analog_input x) (analog_grad_output x).
Definition set_analog_tile (v : option nat) (x : AnalogContext) :=
  mkContext (data x) (requires_grad x) v (use_torch_update x)
    (use_indexed x) (analog_input x) (analog_grad_output x).
Definition set_use_torch_update (v : bool) (x : AnalogContext) :=
  mkContext (data x) (requires_grad x) (analog_tile x) v
    (use_indexed x) (analog_input x) (analog_grad_output x).
Definition set_use_indexed (v : bool) (x : AnalogContext) :=
  mkContext (data x) (requires_grad x) (analog_tile x) (use_torch_update x)
    v (analog_input x) (analog_grad_output x).
Definition set_analog_input (v : list Tensor) (x : AnalogContext) :=
  mkContext (data x) (requires_grad x) (analog_tile x) (use_torch_update x)
    (use_indexed x) v (analog_grad_output x).
Definition set_analog_grad_output (v : list Tensor) (x : AnalogContext) :=
  mkContext (data x) (requires_grad x) (analog_tile x) (use_torch_update x)
    (use_indexed x) (analog_input x) v.

(** Attribute assignments on a tile. *)
Definition set_device (v : torch_device) (t : Tile) :=
  mkTile v (tile_weights t) (analog_ctx t) (runtime t) (tile_shared t)
    (tile_delta t) (calls t).
Definition set_tile_weights (v : Tensor) (t : Tile) :=
  mkTile (device t) v (analog_ctx t) (runtime t) (tile_shared t)
    (tile_delta t) (calls t).
Definition set_analog_ctx (v : option nat) (t : Tile) :=
  mkTile (device t) (tile_weights t) v (runtime t) (tile_shared t)
    (tile_delta t) (calls t).
Definition set_tile_shared (v : option Tensor) (t : Tile) :=
  mkTile (device t) (tile_weights t) (analog_ctx t) (runtime t) v
    (tile_delta t) (calls t).
Definition set_tile_delta (v : option Tensor) (t : Tile) :=
  mkTile (device t) (tile_weights t) (analog_ctx t) (runtime t)
    (tile_shared t) v (calls t).
Definition log_call (c : TileCall) (t : Tile) :=
  mkTile (device t) (tile_weights t) (analog_ctx t) (runtime t)
    (tile_shared t) (tile_delta t) (calls t ++ [c]).

(** ** The tile backend *)

(** The numeric routines of the tile are outside the two modules.  The
    context and the autograd function are verified for every backend:
    what a routine returns, and which tensors the forward routines add to
    [ctx.saved_analog_tensors], are left open. *)
Class TileBackend := {
  joint_forward_out : Tile -> Tensor -> bool -> Tensor;
  joint_forward_saved : Tile -> Tensor -> bool -> list Tensor;
  joint_forward_indexed_out : Tile -> Tensor -> bool -> Tensor;
  joint_forward_indexed_saved : Tile -> Tensor -> bool -> list Tensor;
  backward_out : Tile -> Tensor -> list Tensor -> Tensor;
  backward_indexed_out : Tile -> Tensor -> list Tensor -> Tensor;
  update_delta : Tile -> Tensor -> Tensor -> list Z;
  update_indexed_delta : Tile -> Tensor -> Tensor -> list Z;
  (** [Tensor.copy_]: [None] when torch rejects the shapes *)
  tensor_copy_ : Tensor -> Tensor -> option Tensor
}.

Section Tiles.
Context `{TileBackend}.

(** Modelled from the spec: [getRuntimeConfig], the two offload flags of
    the tile. *)
Definition get_runtime (t : nat) : M RuntimeConfig :=
  ti <- load_tile t ;; ret (runtime ti).

(** Modelled from the spec: [getWeights], the weight tensor held by the
    inner tile ([analog_tile.tile.get_weights()]). *)
Definition get_weights (t : nat) : M Tensor :=
  ti <- load_tile t ;; ret (tile_weights ti).

(** Modelled from the spec: [ensureSharedWeights], binds an external
    tensor as the weight buffer of the tile. *)
Definition ensure_shared_weights (t : nat) (w : Tensor) : M unit :=
  update_tile t (fun ti =>
    log_call (CEnsureSharedWeights w) (set_tile_shared (Some w) ti)).

Definition add_saved (extra : list Tensor) (ctx : CallState) : CallState :=
  mkCall (cs_analog_ctx ctx) (cs_analog_tile ctx) (cs_shared_weights ctx)
    (cs_saved_analog_tensors ctx ++ extra) (cs_saved_tensors ctx).

(** Modelled from the spec: [jointForward], the forward numeric routine;
    it receives the call object and may record tensors in it. *)
Definition joint_forward (t : nat) (x : Tensor) (is_test : bool)
    (ctx : CallState) : M (Tensor * CallState) :=
  ti <- load_tile t ;;
  update_tile t (log_call (CJointForward x is_test)) ;;
  ret (joint_forward_out ti x is_test,
       add_saved (joint_forward_saved ti x is_test) ctx).

(** Modelled from the spec: [jointForwardIndexed], same signature,
    indexed path. *)
Definition joint_forward_indexed (t : nat) (x : Tensor) (is_test : bool)
    (ctx : CallState) : M (Tensor * CallState) :=
  ti <- load_tile t ;;
  update_tile t (log_call (CJointForwardIndexed x is_test)) ;;
  ret (joint_forward_indexed_out ti x is_test,
       add_saved (joint_forward_indexed_saved ti x is_test) ctx).

(** Modelled from the spec: [backwardPass], the backward numeric routine
    returning the input-side gradient. *)
Definition tile_backward (t : nat) (g : Tensor) (ctx : CallState)
    : M Tensor :=
  ti <- load_tile t ;;
  update_tile t (log_call (CBackward g)) ;;
  ret (backward_out ti g (cs_saved_analog_tensors ctx)).

(** Modelled from the spec: [backwardPassIndexed]. *)
Definition tile_backward_indexed (t : nat) (g : Tensor) (ctx : CallState)
    : M Tensor :=
  ti <- load_tile t ;;
  update_tile t (log_call (CBackwardIndexed g)) ;;
  ret (backward_indexed_out ti g (cs_saved_analog_tensors ctx)).

(** Modelled from the spec: [setDeltaWeightsTarget]. *)
Definition set_delta_weights (t : nat) (buf : Tensor) : M unit :=
  update_tile t (fun ti =>
    log_call (CSetDeltaWeights buf) (set_tile_delta (Some buf) ti)).

(** Modelled from the spec: [clearDeltaWeightsTarget]. *)
Definition reset_delta_weights (t : nat) : M unit :=
  update_tile t (fun ti => log_call CResetDeltaWeights (set_tile_delta None ti)).

Definition write_data (v : list Z) (t : Tensor) : Tensor :=
  mkTensor (t_shape t) (t_dtype t) (t_device t) v.

(** The update writes into the delta-weight target when one is bound,
    into the weights of the tile otherwise. *)
Definition apply_update (v : list Z) (ti : Tile) : Tile :=
  match tile_delta ti with
  | Some buf => set_tile_delta (Some (write_data v buf)) ti
  | None => set_tile_weights (write_data v (tile_weights ti)) ti
  end.

(** Modelled from the spec: [update]. *)
Definition tile_update (t : nat) (x g : Tensor) : M unit :=
  update_tile t (fun ti =>
    log_call (CUpdate x g) (apply_update (update_delta ti x g) ti)).

(** Modelled from the spec: [updateIndexed]. *)
Definition tile_update_indexed (t : nat) (x g : Tensor) : M unit :=
  update_tile t (fun ti =>
    log_call (CUpdateIndexed x g)
      (apply_update (update_indexed_delta ti x g) ti)).

(** What the dispatcher finds in the buffer it allocated, once the tile
    has written through the delta-weight target: the buffer and the
    target are one object. *)
Definition read_delta_weights (t : nat) (buf : Tensor) : M Tensor :=
  ti <- load_tile t ;;
  ret (match tile_delta ti with Some b => b | None => buf end).

Definition cuda_index (dev : option nat) : nat :=
  match dev with Some i => i | None => 0 end.

(** Modelled from the spec: [toAccelerator], the tile migrates itself
    and its weights and hands back its own reference. *)
Definition tile_cuda (t : nat) (dev : option nat) : M nat :=
  update_tile t (fun ti =>
    log_call (CCuda dev)
      (set_tile_weights
         (tensor_to_device (Cuda (cuda_index dev)) (tile_weights ti))
         (set_device (Cuda (cuda_index dev)) ti))) ;;
  ret t.

(** Modelled from the spec: [toHost]. *)
Definition tile_cpu (t : nat) : M nat :=
  update_tile t (fun ti =>
    log_call CCpu
      (set_tile_weights (tensor_cpu (tile_weights ti)) (set_device Cpu ti))) ;;
  ret t.

End Tiles.

(** ** AnalogContext (optim/context.py) *)

Section Context.
Context `{TileBackend}.

(** Attribute read [self.<field>] *)
Definition attr {A} (self : nat) (field : AnalogContext -> A) : M A :=
  x <- load_context self ;; ret (field x).

(** [self.analog_tile.<field>]: [None] has no attributes *)
Definition bound_tile (self : nat) : M nat :=
  t <- attr self analog_tile ;;
  match t with
  | Some r => ret r
  | None => raise AttributeError
  end.

(** [AnalogContext.reset] *)
Definition reset (self : nat) (analog_tile_arg : option nat) : M unit :=
  match analog_tile_arg with
  | Some t =>
      update_context self (set_analog_tile (Some t)) ;;
      r <- bound_tile self ;;
      update_tile r (set_analog_ctx (Some self))
  | None => ret tt
  end ;;
  update_context self (set_analog_input []) ;;
  update_context self (set_analog_grad_output []).

(** The attribute slots of an instance before [__init__] has run. *)
Definition blank_context (d : Tensor) (rg : bool) : AnalogContext :=
  mkContext d rg None false false [] [].

(** [AnalogContext.__new__]: a new parameter holding the weights of the
    tile, or the given parameter with its class changed in place. *)
Definition new_ (analog_tile_arg : nat) (parameter : option nat) : M nat :=
  match parameter with
  | None =>
      w <- get_weights analog_tile_arg ;;
      alloc_obj (OContext (blank_context w true))
  | Some p =>
      o <- load_obj p ;;
      match o with
      | OParameter q =>
          store_obj p
            (OContext (blank_context (p_data q) (p_requires_grad q)))
      | OContext _ => ret tt
      end ;;
      ret p
  end.

(** [AnalogContext.__init__] *)
Definition init_ (self : nat) (analog_tile_arg : nat) : M unit :=
  update_context self (set_analog_tile (Some analog_tile_arg)) ;;
  update_context self (set_use_torch_update false) ;;
  update_context self (set_use_indexed false) ;;
  update_context self (set_analog_input []) ;;
  update_context self (set_analog_grad_output []) ;;
  reset self (Some analog_tile_arg).

(** [AnalogContext(analog_tile, parameter)] *)
Definition construct (analog_tile_arg : nat) (parameter : option nat)
    : M nat :=
  self <- new_ analog_tile_arg parameter ;;
  init_ self analog_tile_arg ;;
  ret self.

(** [AnalogContext.set_indexed] *)
Definition set_indexed (self : nat) (value : bool) : M unit :=
  update_context self (set_use_indexed value).

(** [AnalogContext.set_data] *)
Definition set_data (self : nat) (d : Tensor) : M unit :=
  cur <- attr self data ;;
  match tensor_copy_ cur d with
  | Some v => update_context self (set_data_attr v)
  | None => raise RuntimeError
  end.

(** [AnalogContext.get_data] *)
Definition get_data (self : nat) : M Tensor := attr self data.

(** [AnalogContext.has_gradient] *)
Definition has_gradient (self : nat) : M bool :=
  l <- attr self analog_input ;;
  ret (0 <? length l).

(** [AnalogContext.__copy__] *)
Definition copy_ (self : nat) : M nat :=
  d <- attr self data ;;
  alloc_obj (OParameter (mkParameter d true)).

(** [AnalogContext.__deepcopy__]; the memo is not consulted *)
Definition deepcopy_ (self : nat) : M nat :=
  d <- attr self data ;;
  alloc_obj (OParameter (mkParameter d true)).

(** [AnalogContext.cuda] *)
Definition cuda (self : nat) (dev : option nat) : M nat :=
  t <- bound_tile self ;;
  ti <- load_tile t ;;
  (if negb (is_cuda ti) then
     w <- get_weights t ;;
     update_context self (set_data_attr w) ;;
     t' <- tile_cuda t dev ;;
     update_context self (set_analog_tile (Some t')) ;;
     cur <- attr self analog_tile ;;
     reset self cur
   else ret tt) ;;
  ret self.

(** [AnalogContext.cpu] *)
Definition cpu (self : nat) : M nat :=
  d <- attr self data ;;
  update_context self (set_data_attr (tensor_cpu d)) ;;
  cur <- attr self analog_tile ;;
  match cur with
  | None => ret tt
  | Some t =>
      ti <- load_tile t ;;
      if is_cuda ti then
        t' <- tile_cpu t ;;
        update_context self (set_analog_tile (Some t')) ;;
        cur' <- attr self analog_tile ;;
        reset self cur'
      else ret tt
  end ;;
  ret self.

(** The device that [AnalogContext.to] extracts from its arguments: the
    keyword [device], else a first positional argument that is neither a
    tensor nor a dtype. *)
Definition to_device_arg (args : list to_arg) (kw : to_kwargs)
    : option torch_device :=
  match kw_device kw with
  | Some d => Some d
  | None =>
      match args with
      | ArgDevice d :: _ => Some d
      | _ => None
      end
  end.

(** [AnalogContext.to] *)
Definition to (self : nat) (args : list to_arg) (kw : to_kwargs) : M nat :=
  d <- attr self data ;;
  update_context self (set_data_attr (tensor_to args kw d)) ;;
  match to_device_arg args kw with
  | None => ret tt
  | Some (Cuda i) =>
      t <- bound_tile self ;;
      ti <- load_tile t ;;
      if negb (is_cuda ti) then cuda self (Some i) ;; ret tt else ret tt
  | Some Cpu =>
      t <- bound_tile self ;;
      ti <- load_tile t ;;
      if is_cuda ti then cpu self ;; ret tt else ret tt
  end ;;
  ret self.

End Context.

(** ** AnalogFunction (simulator/tiles/functions.py) *)

Section Dispatcher.
Context `{TileBackend}.

Definition set_cs_shared (w : option Tensor) (ctx : CallState) : CallState :=
  mkCall (cs_analog_ctx ctx) (cs_analog_tile ctx) w
    (cs_saved_analog_tensors ctx) (cs_saved_tensors ctx).
Definition set_cs_saved_analog (l : list Tensor) (ctx : CallState)
    : CallState :=
  mkCall (cs_analog_ctx ctx) (cs_analog_tile ctx) (cs_shared_weights ctx)
    l (cs_saved_tensors ctx).
Definition set_cs_saved (l : list Tensor) (ctx : CallState) : CallState :=
  mkCall (cs_analog_ctx ctx) (cs_analog_tile ctx) (cs_shared_weights ctx)
    (cs_saved_analog_tensors ctx) l.

(** [l[0]] *)
Definition first_item (l : list Tensor) : M Tensor :=
  match l with
  | x :: _ => ret x
  | [] => raise IndexError
  end.

(** [AnalogFunction.forward]; returns the call object next to the output,
    as autograd keeps it for the matching backward. *)
Definition forward (analog_ctx_arg analog_tile_arg : nat) (input_ : Tensor)
    (shared_weights : option Tensor) (is_test : bool)
    : M (CallState * Tensor) :=
  let ctx := mkCall analog_ctx_arg analog_tile_arg None [input_] [] in
  rt <- get_runtime analog_tile_arg ;;
  use_idx <- attr analog_ctx_arg use_indexed ;;
  ctx <- match shared_weights with
         | Some w =>
             ensure_shared_weights analog_tile_arg w ;;
             update_context analog_ctx_arg (set_use_torch_update true) ;;
             ret (set_cs_shared (Some w) ctx)
         | None =>
             update_context analog_ctx_arg (set_use_torch_update false) ;;
             ret ctx
         end ;;
  r <- (if use_idx
        then joint_forward_indexed analog_tile_arg input_ is_test ctx
        else joint_forward analog_tile_arg input_ is_test ctx) ;;
  let out := fst r in
  let ctx := snd r in
  ctx <- (if offload_input rt then
            x <- first_item (cs_saved_analog_tensors ctx) ;;
            ret (set_cs_saved_analog
                   (<[0 := tensor_cpu x]> (cs_saved_analog_tensors ctx)) ctx)
          else ret ctx) ;;
  let ctx := set_cs_saved (cs_saved_analog_tensors ctx) ctx in
  let ctx := set_cs_saved_analog [] ctx in
  ret (ctx, out).

(** The five gradient slots returned by [backward], one per argument of
    [forward]. *)
Record Grads := mkGrads {
  grad_analog_ctx : option Tensor;
  grad_analog_tile : option Tensor;
  grad_input : option Tensor;
  grad_shared_weights : option Tensor;
  grad_is_test : option Tensor
}.

(** [AnalogFunction.backward]; returns the call object as it leaves it
    next to the gradients.  The transfers [grad_output.cpu()] and
    [input_.to(device)] are total here, while torch may fail in them (out
    of memory, device error); the raises of this definition are those the
    source itself shows, so what is stated of a run that returns carries
    over to the code, and what is stated of a run that raises covers these
    raises only. *)
Definition backward (ctx : CallState) (grad_output : Tensor)
    : M (CallState * Grads) :=
  let analog_ctx_ref := cs_analog_ctx ctx in
  let analog_tile_ref := cs_analog_tile ctx in
  let ctx := set_cs_saved_analog (cs_saved_tensors ctx) ctx in
  input_ <- first_item (cs_saved_analog_tensors ctx) ;;
  rt <- get_runtime analog_tile_ref ;;
  use_idx <- attr analog_ctx_ref use_indexed ;;
  match cs_shared_weights ctx with
  | Some w => ensure_shared_weights analog_tile_ref w
  | None => ret tt
  end ;;
  gi <- (if use_idx
         then tile_backward_indexed analog_tile_ref grad_output ctx
         else tile_backward analog_tile_ref grad_output ctx) ;;
  direct <- attr analog_ctx_ref use_torch_update ;;
  shared_weights_grad <-
    (if direct then
       input_ <- (if offload_input rt then
                    ti <- load_tile analog_tile_ref ;;
                    ret (tensor_to_device (device ti) input_)
                  else ret input_) ;;
       buf <- match cs_shared_weights ctx with
              | Some w => ret (empty_like w)
              | None => raise TypeError
              end ;;
       set_delta_weights analog_tile_ref buf ;;
       (if use_idx
        then tile_update_indexed analog_tile_ref input_ grad_output
        else tile_update analog_tile_ref input_ grad_output) ;;
       g <- read_delta_weights analog_tile_ref buf ;;
       reset_delta_weights analog_tile_ref ;;
       ret (Some g)
     else
       update_context analog_ctx_ref
         (fun x => set_analog_input (analog_input x ++ [input_]) x) ;;
       let store_gradients := if offload_gradient rt
                              then tensor_cpu grad_output
                              else grad_output in
       update_context analog_ctx_ref
         (fun x => set_analog_grad_output
                     (analog_grad_output x ++ [store_gradients]) x) ;;
       ret None) ;;
  let ctx := set_cs_saved_analog [] ctx in
  ret (ctx, mkGrads None None (Some gi) shared_weights_grad None).

End Dispatcher.

(** ** Sequences of calls *)

Section Programs.
Context `{TileBackend}.

(** One call on the context or through the autograd function. *)
Inductive Op :=
| OpConstruct (analog_tile_arg : nat) (parameter : option nat)
| OpReset (self : nat) (analog_tile_arg : option nat)
| OpSetIndexed (self : nat) (value : bool)
| OpSetData (self : nat) (d : Tensor)
| OpGetData (self : nat)
| OpHasGradient (self : nat)
| OpCopy (self : nat)
| OpDeepcopy (self : nat)
| OpCuda (self : nat) (dev : option nat)
| OpCpu (self : nat)
| OpTo (self : nat) (args : list to_arg) (kw : to_kwargs)
| OpForward (analog_ctx_arg analog_tile_arg : nat) (input_ : Tensor)
    (shared_weights : option Tensor) (is_test : bool)
| OpBackward (ctx : CallState) (grad_output : Tensor).

Definition run_op (o : Op) : M unit :=
  match o with
  | OpConstruct t p => construct t p ;; ret tt
  | OpReset self t => reset self t
  | OpSetIndexed self v => set_indexed self v
  | OpSetData self d => set_data self d
  | OpGetData self => get_data self ;; ret tt
  | OpHasGradient self => has_gradient self ;; ret tt
  | OpCopy self => copy_ self ;; ret tt
  | OpDeepcopy self => deepcopy_ self ;; ret tt
  | OpCuda self dev => cuda self dev ;; ret tt
  | OpCpu self => cpu self ;; ret tt
  | OpTo self args kw => to self args kw ;; ret tt
  | OpForward c t x w it => forward c t x w it ;; ret tt
  | OpBackward ctx g => backward ctx g ;; ret tt
  end.

(** The calls whose body runs [reset] on the object [r]: [reset] itself,
    the constructor on an existing parameter, and the device moves. *)
Definition calls_reset (o : Op) (r : nat) : bool :=
  match o with
  | OpReset self _ | OpCuda self _ | OpCpu self | OpTo self _ _ =>
      Nat.eqb self r
  | OpConstruct _ (Some p) => Nat.eqb p r
  | _ => false
  end.

(** [forward] then the matching [backward], without shared weights, once
    per element of the batch. *)
Fixpoint run_pairs (c t : nat) (batch : list (Tensor * Tensor * bool))
    : M unit :=
  match batch with
  | [] => ret tt
  | (x, g, is_test) :: rest =>
      r <- forward c t x None is_test ;;
      backward (fst r) g ;;
      run_pairs c t rest
  end.

End Programs.

(** ** Observations on stores *)

Definition same_traces (x x' : AnalogContext) : Prop :=
  analog_input x' = analog_input x /\
  analog_grad_output x' = analog_grad_output x.

Definition no_traces (x : AnalogContext) : Prop :=
  analog_input x = [] /\ analog_grad_output x = [].

Definition aligned (o : Obj) : Prop :=
  match o with
  | OContext x => length (analog_input x) = length (analog_grad_output x)
  | OParameter _ => True
  end.

#[global] Instance aligned_dec o : Decision (aligned o).
Proof. destruct o; simpl; apply _. Defined.

(** [len(analog_input) == len(analog_grad_output)] on every context. *)
Definition traces_aligned (st : Store) : Prop :=
  map_Forall (fun _ o => aligned o) (objs st).

(** Every context of [st] is still one in [st'], with its traces, and
    [st'] has no others; [self], when given, may instead have lost its
    traces or have become a context without traces. *)
Definition keeps_except (self : option nat) (st st' : Store) : Prop :=
  (forall r x, objs st !! r = Some (OContext x) ->
     exists x', objs st' !! r = Some (OContext x') /\
       (same_traces x x' \/ (self = Some r /\ no_traces x'))) /\
  (forall r x', objs st' !! r = Some (OContext x') ->
     (exists x, objs st !! r = Some (OContext x)) \/
     (self = Some r /\ no_traces x')).

(** [m] takes every store to one related to it by [R], whether it
    returns or raises. *)
Definition preserves {A} (R : Store -> Store -> Prop) (m : M A) : Prop :=
  forall st, R st (exec m st).

(** What one call may do to the traces of the contexts of a store: keep
    them, empty them when the body of the call runs [reset] on that
    context, or, for a backward in deferred mode, extend both by one
    element; a context that was not one before has no traces. *)
Definition trace_effect (o : Op) (st st' : Store) : Prop :=
  (forall r x,
     objs st !! r = Some (OContext x) ->
     exists x',
       objs st' !! r = Some (OContext x') /\
       (same_traces x x'
        \/ (no_traces x' /\ calls_reset o r = true)
        \/ (exists cs g i e,
              o = OpBackward cs g /\ cs_analog_ctx cs = r /\
              use_torch_update x = false /\
              analog_input x' = analog_input x ++ [i] /\
              analog_grad_output x' = analog_grad_output x ++ [e]))) /\
  (forall r x',
     objs st' !! r = Some (OContext x') ->
     (exists x, objs st !! r = Some (OContext x)) \/ no_traces x').

(** What a move leaves of the binding state of [self]: the outcome is
    the context itself, no tile is touched, traces, flags and tile
    reference are those of [x], and a second move changes nothing. *)
Definition binding_kept (m : M nat) (st : Store) (self : nat)
    (x : AnalogContext) : Prop :=
  eval m st = Ok self /\
  tiles (exec m st) = tiles st /\
  (exists x',
     objs (exec m st) !! self = Some (OContext x') /\
     analog_input x' = analog_input x /\
     analog_grad_output x' = analog_grad_output x /\
     use_indexed x' = use_indexed x /\
     use_torch_update x' = use_torch_update x /\
     analog_tile x' = analog_tile x) /\
  exec m (exec m st) = exec m st.

Definition is_backward_call (c : TileCall) : bool :=
  match c with
  | CBackward _ | CBackwardIndexed _ => true
  | _ => false
  end.

Definition is_update_call (c : TileCall) : bool :=
  match c with
  | CUpdate _ _ | CUpdateIndexed _ _ => true
  | _ => false
  end.

(** The tensor that [forward] leaves in the first saved slot. *)
Definition saved_input (rt : RuntimeConfig) (x : Tensor) : Tensor :=
  if offload_input rt then tensor_cpu x else x.

(** The tensor that [backward] appends to [analog_grad_output]. *)
Definition stored_gradient (rt : RuntimeConfig) (g : Tensor) : Tensor :=
  if offload_gradient rt then tensor_cpu g else g.

(** ** What one call leaves behind

    The effect of [forward] and [backward] on the one context and the one
    tile they touch, read off the bodies above; the lemmas of the section
    [Calls] relate them to the monadic definitions. *)

Section Effects.
Context `{TileBackend}.

Definition has_shared (sw : option Tensor) : bool :=
  match sw with Some _ => true | None => false end.

(** The tile after [ensure_shared_weights], when it is called. *)
Definition shared_bound (sw : option Tensor) (ti : Tile) : Tile :=
  match sw with
  | Some w => log_call (CEnsureSharedWeights w) (set_tile_shared (Some w) ti)
  | None => ti
  end.

Definition forward_call (use_idx : bool) (x : Tensor) (is_test : bool)
    : TileCall :=
  if use_idx then CJointForwardIndexed x is_test else CJointForward x is_test.

Definition forward_out (use_idx : bool) (ti : Tile) (x : Tensor)
    (is_test : bool) : Tensor :=
  if use_idx then joint_forward_indexed_out ti x is_test
  else joint_forward_out ti x is_test.

Definition forward_extra (use_idx : bool) (ti : Tile) (x : Tensor)
    (is_test : bool) : list Tensor :=
  if use_idx then joint_forward_indexed_saved ti x is_test
  else joint_forward_saved ti x is_test.

Definition backward_call (use_idx : bool) (g : Tensor) : TileCall :=
  if use_idx then CBackwardIndexed g else CBackward g.

Definition backward_grad_input (use_idx : bool) (ti : Tile) (g : Tensor)
    (saved : list Tensor) : Tensor :=
  if use_idx then backward_indexed_out ti g saved
  else backward_out ti g saved.

Definition update_call (use_idx : bool) (x g : Tensor) : TileCall :=
  if use_idx then CUpdateIndexed x g else CUpdate x g.

Definition update_values (use_idx : bool) (ti : Tile) (x g : Tensor)
    : list Z :=
  if use_idx then update_indexed_delta ti x g else update_delta ti x g.

(** The input handed to the update routine in the direct branch. *)
Definition update_input (ti : Tile) (x : Tensor) : Tensor :=
  if offload_input (runtime ti) then tensor_to_device (device ti) x else x.

(** The tile when the update routine of the direct branch is entered. *)
Definition delta_bound (use_idx : bool) (sw : option Tensor) (w g : Tensor)
    (ti : Tile) : Tile :=
  log_call (CSetDeltaWeights (empty_like w))
    (set_tile_delta (Some (empty_like w))
       (log_call (backward_call use_idx g) (shared_bound sw ti))).

End Effects.

(** ** Bindings and migrated tiles *)

(** The tile after [tile_cuda]. *)
Definition migrated_cuda (dev : option nat) (ti : Tile) : Tile :=
  log_call (CCuda dev)
    (set_tile_weights
       (tensor_to_device (Cuda (cuda_index dev)) (tile_weights ti))
       (set_device (Cuda (cuda_index dev)) ti)).

(** The tile after [tile_cpu]. *)
Definition migrated_cpu (ti : Tile) : Tile :=
  log_call CCpu
    (set_tile_weights (tensor_cpu (tile_weights ti)) (set_device Cpu ti)).

(** The context [c] refers to the tile [t] and [t] refers back to [c]. *)
Definition bound (st : Store) (c t : nat) : Prop :=
  exists x ti,
    objs st !! c = Some (OContext x) /\ analog_tile x = Some t /\
    tiles st !! t = Some ti /\ analog_ctx ti = Some c.

(** Everything of a context but its data. *)
Definition same_but_data (x x' : AnalogContext) : Prop :=
  requires_grad x' = requires_grad x /\
  analog_tile x' = analog_tile x /\
  use_torch_update x' = use_torch_update x /\
  use_indexed x' = use_indexed x /\
  analog_input x' = analog_input x /\
  analog_grad_output x' = analog_grad_output x.

(** Every binding of [st] is one of [st']. *)
Definition binds_kept (st st' : Store) : Prop :=
  forall c t, bound st c t -> bound st' c t.

(** The calls that contain no [reset]: everything but [reset], the
    constructor and the device moves. *)
Definition never_rebinds (o : Op) : bool :=
  match o with
  | OpSetIndexed _ _ | OpSetData _ _ | OpGetData _ | OpHasGradient _
  | OpCopy _ | OpDeepcopy _ | OpForward _ _ _ _ _ | OpBackward _ _ => true
  | OpConstruct _ _ | OpReset _ _ | OpCuda _ _ | OpCpu _ | OpTo _ _ _ => false
  end.

Definition is_forward_call (c : TileCall) : bool :=
  match c with
  | CJointForward _ _ | CJointForwardIndexed _ _ => true
  | _ => false
  end.

(** ** A test double *)

Module Demo.

#[export] Instance backend : TileBackend := {|
  joint_forward_out := fun ti x _ => mkTensor [1] Float32 (device ti) [1%Z];
  joint_forward_saved := fun _ _ _ => [];
  joint_forward_indexed_out :=
    fun ti x _ => mkTensor [1] Float32 (device ti) [2%Z];
  joint_forward_indexed_saved := fun _ x _ => [x];
  backward_out := fun ti g _ => mkTensor [2] Float32 (device ti) [3%Z];
  backward_indexed_out :=
    fun ti g _ => mkTensor [2] Float32 (device ti) [4%Z];
  update_delta := fun _ _ _ => [5%Z];
  update_indexed_delta := fun _ _ _ => [6%Z];
  tensor_copy_ := fun a b =>
    if decide (t_shape a = t_shape b)
    then Some (mkTensor (t_shape a) (t_dtype a) (t_device a) (t_data b))
    else None
|}.

Definition weights := mkTensor [2; 2] Float32 Cpu [1; 2; 3; 4]%Z.
Definition shared := mkTensor [2; 2] Float32 (Cuda 0) [5; 6; 7; 8]%Z.
Definition x0 := mkTensor [2] Float32 (Cuda 0) [9; 9]%Z.
Definition g0 := mkTensor [2] Float32 (Cuda 0) [8; 8]%Z.

(** A host tile and an accelerator tile that offloads saved inputs. *)
Definition host_tile :=
  mkTile Cpu weights None (mkRuntime false false) None None [].
Definition cuda_tile :=
  mkTile (Cuda 0) (tensor_to_device (Cuda 0) weights) None
    (mkRuntime true false) None None [].

(** A parameter that is not gradient-tracked. *)
Definition frozen := mkParameter weights false.

Definition tiles0 : gmap nat Tile := {[ 7 := host_tile; 8 := cuda_tile ]}.
Definition objs0 : gmap nat Obj := {[ 3 := OParameter frozen ]}.
Definition store0 := mkStore objs0 tiles0.

(** [store0] after [AnalogContext(tile 7)]; the context is object 4. *)
Definition host_store := exec (construct 7 None) store0.
(** [store0] after [AnalogContext(tile 8)]; the context is object 4. *)
Definition cuda_store := exec (construct 8 None) store0.

Definition batch3 : list (Tensor * Tensor * bool) :=
  [(x0, g0, false); (g0, x0, false); (x0, x0, true)].

(** [host_store] after one forward/backward pair in deferred mode. *)
Definition trained_store := exec (run_pairs 4 7 [(x0, g0, false)]) host_store.

Definition host_context :=
  mkContext weights true (Some 7) false false [] [].
Definition cuda_context :=
  mkContext (tensor_to_device (Cuda 0) weights) true (Some 8) false false
    [] [].

Definition trained_context :=
  mkContext weights true (Some 7) false false [x0] [g0].

(** A context that refers to no tile, as [AnalogContext(None, parameter)]
    leaves it. *)
Definition unbound_context := mkContext weights true None false false [] [].
Definition unbound_store :=
  mkStore {[ 5 := OContext unbound_context ]} tiles0.

(** [host_store] after a forward with shared weights: the context is in
    direct mode. *)
Definition direct_store := exec (forward 4 7 x0 (Some shared) false) host_store.

End Demo.

(** ** Running the primitives *)

Section Run.
Context `{TileBackend}.

Lemma bind_ok {A B} (m : M A) (f : A -> M B) st a st' :
  m st = (Ok a, st') -> bind m f st = f a st'.
Proof. intros E. unfold bind. now rewrite E. Qed.

Lemma load_context_ok st r x :
  objs st !! r = Some (OContext x) -> load_context r st = (Ok x, st).
Proof. intros E. unfold load_context. now rewrite E. Qed.

Lemma attr_ok {A} st r x (field : AnalogContext -> A) :
  objs st !! r = Some (OContext x) -> attr r field st = (Ok (field x), st).
Proof. intros E. unfold attr. now rewrite (bind_ok _ _ _ _ _ (load_context_ok _ _ _ E)). Qed.

Lemma update_context_ok st r x f :
  objs st !! r = Some (OContext x) ->
  update_context r f st
  = (Ok tt, mkStore (<[r := OContext (f x)]> (objs st)) (tiles st)).
Proof.
  intros E. unfold update_context.
  now rewrite (bind_ok _ _ _ _ _ (load_context_ok _ _ _ E)).
Qed.

Lemma load_tile_ok st t ti :
  tiles st !! t = Some ti -> load_tile t st = (Ok ti, st).
Proof. intros E. unfold load_tile. now rewrite E. Qed.

Lemma update_tile_ok st t ti f :
  tiles st !! t = Some ti ->
  update_tile t f st
  = (Ok tt, mkStore (objs st) (<[t := f ti]> (tiles st))).
Proof. intros E. unfold update_tile. now rewrite E. Qed.

End Run.

(** Runs a computation whose lookups are known from the context. *)
Ltac py_lookup :=
  cbn [objs tiles];
  first [ eassumption | apply lookup_insert_eq
        | rewrite lookup_insert_ne by congruence; eassumption ].

Ltac py_prim :=
  first
    [ erewrite update_context_ok by py_lookup
    | erewrite update_tile_ok by py_lookup
    | erewrite load_tile_ok by py_lookup
    | erewrite load_context_ok by py_lookup
    | erewrite attr_ok by py_lookup
    | rewrite insert_insert_eq ].

Ltac py_simpl :=
  cbv beta iota zeta;
  cbn [objs tiles fst snd
       set_cs_shared set_cs_saved_analog set_cs_saved add_saved
       data requires_grad analog_tile use_torch_update use_indexed
       analog_input analog_grad_output
       set_data_attr set_analog_tile set_use_torch_update set_use_indexed
       set_analog_input set_analog_grad_output
       device tile_weights analog_ctx runtime tile_shared tile_delta calls
       set_device set_tile_weights set_analog_ctx set_tile_shared
       set_tile_delta log_call is_cuda
       cs_analog_ctx cs_analog_tile cs_shared_weights
       cs_saved_analog_tensors cs_saved_tensors
       offload_input offload_gradient negb].

Ltac py_flag :=
  match goal with
  | Hb : ?b = true |- context [?b] => rewrite Hb
  | Hb : ?b = false |- context [?b] => rewrite Hb
  end.

Ltac py_run :=
  unfold bind, ret, raise;
  repeat first [ progress py_simpl | py_prim | py_flag ].

(** Closes an equation between two stores or outcomes once the
    computation has been run. *)
Ltac py_done :=
  unfold set_data_attr, set_analog_tile, set_use_torch_update,
    set_use_indexed, set_analog_input, set_analog_grad_output,
    set_cs_shared, set_cs_saved_analog, set_cs_saved, add_saved;
  py_simpl; repeat py_flag; reflexivity.

Section ResetFacts.
Context `{TileBackend}.

Lemma reset_none_run st self x :
  objs st !! self = Some (OContext x) ->
  reset self None st
  = (Ok tt,
     mkStore (<[self := OContext
                  (mkContext (data x) (requires_grad x) (analog_tile x)
                     (use_torch_update x) (use_indexed x) [] [])]> (objs st))
       (tiles st)).
Proof.
  intros E. unfold reset, ret. py_run. reflexivity.
Qed.

Lemma reset_some_run st self x t ti :
  objs st !! self = Some (OContext x) ->
  tiles st !! t = Some ti ->
  reset self (Some t) st
  = (Ok tt,
     mkStore (<[self := OContext
                  (mkContext (data x) (requires_grad x) (Some t)
                     (use_torch_update x) (use_indexed x) [] [])]> (objs st))
       (<[t := set_analog_ctx (Some self) ti]> (tiles st))).
Proof.
  intros E Et. unfold reset, bound_tile, ret. py_run. reflexivity.
Qed.

End ResetFacts.


(** Filters a call log that ends in known calls. *)
Ltac py_calls :=
  cbn [calls log_call set_tile_delta set_tile_shared set_tile_weights
       set_analog_ctx set_device];
  rewrite ?filter_app; cbn; rewrite ?app_nil_r; rewrite <- ?app_assoc;
  reflexivity.

(** ** One call of the autograd function *)

Ltac py_unfold_tile :=
  unfold get_runtime, get_weights, ensure_shared_weights, joint_forward,
    joint_forward_indexed, tile_backward, tile_backward_indexed,
    set_delta_weights, reset_delta_weights, tile_update, tile_update_indexed,
    read_delta_weights, tile_cuda, tile_cpu, first_item.

Section Calls.
Context `{TileBackend}.

Lemma forward_run st c t x ti inp sw it :
  objs st !! c = Some (OContext x) ->
  tiles st !! t = Some ti ->
  forward c t inp sw it st
  = (Ok (mkCall c t sw []
           (saved_input (runtime ti) inp
              :: forward_extra (use_indexed x) (shared_bound sw ti) inp it),
         forward_out (use_indexed x) (shared_bound sw ti) inp it),
     mkStore
       (<[c := OContext (set_use_torch_update (has_shared sw) x)]> (objs st))
       (<[t := log_call (forward_call (use_indexed x) inp it)
                 (shared_bound sw ti)]> (tiles st))).
Proof.
  intros E Et. unfold forward. py_unfold_tile.
  unfold saved_input, forward_extra, forward_out, forward_call.
  destruct sw as [w|], (use_indexed x) eqn:Ei, (offload_input (runtime ti)) eqn:Eo;
    py_run; py_done.
Qed.

Lemma backward_deferred_run st cs g x ti inp rest :
  objs st !! cs_analog_ctx cs = Some (OContext x) ->
  tiles st !! cs_analog_tile cs = Some ti ->
  cs_saved_tensors cs = inp :: rest ->
  use_torch_update x = false ->
  backward cs g st
  = (Ok (mkCall (cs_analog_ctx cs) (cs_analog_tile cs) (cs_shared_weights cs)
           [] (inp :: rest),
         mkGrads None None
           (Some (backward_grad_input (use_indexed x)
                    (shared_bound (cs_shared_weights cs) ti) g (inp :: rest)))
           None None),
     mkStore
       (<[cs_analog_ctx cs :=
            OContext
              (mkContext (data x) (requires_grad x) (analog_tile x) false
                 (use_indexed x) (analog_input x ++ [inp])
                 (analog_grad_output x ++ [stored_gradient (runtime ti) g]))]>
          (objs st))
       (<[cs_analog_tile cs :=
            log_call (backward_call (use_indexed x) g)
              (shared_bound (cs_shared_weights cs) ti)]> (tiles st))).
Proof.
  intros E Et Es Eu. unfold backward. py_unfold_tile.
  unfold backward_grad_input, backward_call, stored_gradient, shared_bound.
  destruct cs as [c t sw sa sv]; cbn in E, Et, Es; subst sv.
  destruct sw as [w|], (use_indexed x) eqn:Ei,
    (offload_gradient (runtime ti)) eqn:Eg;
    py_run; py_done.
Qed.

Lemma backward_direct_run st cs g x ti inp rest w :
  objs st !! cs_analog_ctx cs = Some (OContext x) ->
  tiles st !! cs_analog_tile cs = Some ti ->
  cs_saved_tensors cs = inp :: rest ->
  use_torch_update x = true ->
  cs_shared_weights cs = Some w ->
  let ui := use_indexed x in
  let tb := delta_bound ui (Some w) w g ti in
  let xin := update_input ti inp in
  let buf := write_data (update_values ui tb xin g) (empty_like w) in
  backward cs g st
  = (Ok (mkCall (cs_analog_ctx cs) (cs_analog_tile cs) (Some w)
           [] (inp :: rest),
         mkGrads None None
           (Some (backward_grad_input ui (shared_bound (Some w) ti) g
                    (inp :: rest)))
           (Some buf) None),
     mkStore (objs st)
       (<[cs_analog_tile cs :=
            log_call CResetDeltaWeights
              (set_tile_delta None
                 (log_call (update_call ui xin g)
                    (set_tile_delta (Some buf) tb)))]> (tiles st))).
Proof.
  intros E Et Es Eu Ew. unfold backward. py_unfold_tile.
  unfold backward_grad_input, backward_call, update_call, update_values,
    update_input, delta_bound, backward_call, shared_bound, apply_update.
  destruct cs as [c t sw sa sv]; cbn in E, Et, Es, Ew; subst sv sw.
  destruct (use_indexed x) eqn:Ei, (offload_input (runtime ti)) eqn:Eo;
    py_run; py_done.
Qed.

Lemma backward_direct_raise st cs g x ti inp rest :
  objs st !! cs_analog_ctx cs = Some (OContext x) ->
  tiles st !! cs_analog_tile cs = Some ti ->
  cs_saved_tensors cs = inp :: rest ->
  use_torch_update x = true ->
  cs_shared_weights cs = None ->
  backward cs g st
  = (Raise TypeError,
     mkStore (objs st)
       (<[cs_analog_tile cs := log_call (backward_call (use_indexed x) g) ti]>
          (tiles st))).
Proof.
  intros E Et Es Eu Ew. unfold backward. py_unfold_tile.
  unfold backward_call.
  destruct cs as [c t sw sa sv]; cbn in E, Et, Es, Ew; subst sv sw.
  destruct (use_indexed x) eqn:Ei, (offload_input (runtime ti)) eqn:Eo;
    py_run; py_done.
Qed.

End Calls.

(** ** Deferred mode: the trace grows by one pair per call pair *)

Section Deferred.
Context `{TileBackend}.

Lemma pair_deferred_run st c t x ti inp g it :
  objs st !! c = Some (OContext x) ->
  tiles st !! t = Some ti ->
  (r <- forward c t inp None it ;; backward (fst r) g) st
  = (Ok (mkCall c t None []
           (saved_input (runtime ti) inp
              :: forward_extra (use_indexed x) ti inp it),
         mkGrads None None
           (Some (backward_grad_input (use_indexed x)
                    (log_call (forward_call (use_indexed x) inp it) ti) g
                    (saved_input (runtime ti) inp
                       :: forward_extra (use_indexed x) ti inp it)))
           None None),
     mkStore
       (<[c := OContext
                 (mkContext (data x) (requires_grad x) (analog_tile x) false
                    (use_indexed x)
                    (analog_input x ++ [saved_input (runtime ti) inp])
                    (analog_grad_output x ++ [stored_gradient (runtime ti) g]))]>
          (objs st))
       (<[t := log_call (backward_call (use_indexed x) g)
                 (log_call (forward_call (use_indexed x) inp it) ti)]>
          (tiles st))).
Proof.
  intros E Et. unfold bind at 1.
  rewrite (forward_run _ _ _ _ _ _ _ _ E Et). cbn [fst snd].
  erewrite backward_deferred_run;
    [ | cbn; apply lookup_insert_eq | cbn; apply lookup_insert_eq
      | reflexivity | reflexivity ].
  cbn. now rewrite !insert_insert_eq.
Qed.

Lemma run_pairs_traces c t batch :
  forall st x ti,
    objs st !! c = Some (OContext x) ->
    tiles st !! t = Some ti ->
    eval (run_pairs c t batch) st = Ok tt /\
    exists x' ti',
      objs (exec (run_pairs c t batch) st) !! c = Some (OContext x') /\
      tiles (exec (run_pairs c t batch) st) !! t = Some ti' /\
      runtime ti' = runtime ti /\
      analog_input x'
      = analog_input x
        ++ map (fun b => saved_input (runtime ti) (fst (fst b))) batch /\
      analog_grad_output x'
      = analog_grad_output x
        ++ map (fun b => stored_gradient (runtime ti) (snd (fst b))) batch.
Proof.
  induction batch as [|[[inp g] it] rest IH]; intros st x ti E Et.
  - split; [reflexivity|]. exists x, ti. cbn.
    now rewrite !app_nil_r.
  - pose proof (pair_deferred_run st c t x ti inp g it E Et) as Hp.
    set (st1 := snd ((r <- forward c t inp None it ;; backward (fst r) g) st)).
    assert (Hrun : forall A (k : M A),
              (r <- forward c t inp None it ;; backward (fst r) g ;; k) st
              = k st1).
    { intros A k. subst st1. unfold bind in Hp |- *.
      destruct (forward c t inp None it st) as [[[cs out]|e] s0];
        [|discriminate].
      cbn [fst] in Hp |- *.
      destruct (backward cs g s0) as [[a|e] s1]; [reflexivity|discriminate]. }
    assert (E1 : objs st1 !! c = Some (OContext
                 (mkContext (data x) (requires_grad x) (analog_tile x) false
                    (use_indexed x)
                    (analog_input x ++ [saved_input (runtime ti) inp])
                    (analog_grad_output x
                       ++ [stored_gradient (runtime ti) g])))).
    { subst st1. rewrite Hp. cbn. apply lookup_insert_eq. }
    assert (Et1 : tiles st1 !! t = Some
                 (log_call (backward_call (use_indexed x) g)
                    (log_call (forward_call (use_indexed x) inp it) ti))).
    { subst st1. rewrite Hp. cbn. apply lookup_insert_eq. }
    destruct (IH st1 _ _ E1 Et1) as (Hev & x' & ti' & Ex' & Eti' & Hrt & Hi & Hg).
    unfold eval, exec. cbn [run_pairs]. rewrite Hrun.
    split; [exact Hev|].
    exists x', ti'. repeat split; try assumption.
    + rewrite Hi. cbn. now rewrite <- app_assoc.
    + rewrite Hg. cbn. now rewrite <- app_assoc.
Qed.

(** C1. After [N] forward/backward pairs without shared weights on a
    context whose traces were empty, both [analog_input] and
    [analog_grad_output] have length [N], and [has_gradient] answers true
    as soon as [N >= 1]. *)
Theorem trace_length_after_pairs st c t x ti batch :
  objs st !! c = Some (OContext x) ->
  tiles st !! t = Some ti ->
  analog_input x = [] ->
  analog_grad_output x = [] ->
  eval (run_pairs c t batch) st = Ok tt /\
  exists x',
    objs (exec (run_pairs c t batch) st) !! c = Some (OContext x') /\
    length (analog_input x') = length batch /\
    length (analog_grad_output x') = length batch /\
    (1 <= length batch ->
     eval (has_gradient c) (exec (run_pairs c t batch) st) = Ok true).
Proof.
  intros E Et Hi Hg.
  destruct (run_pairs_traces c t batch st x ti E Et)
    as (Hev & x' & ti' & Ex' & _ & _ & Hi' & Hg').
  split; [exact Hev|]. exists x'.
  rewrite Hi in Hi'. rewrite Hg in Hg'. cbn in Hi', Hg'.
  assert (Li : length (analog_input x') = length batch)
    by (rewrite Hi'; apply length_map).
  assert (Lg : length (analog_grad_output x') = length batch)
    by (rewrite Hg'; apply length_map).
  repeat split; try assumption.
  intros Hn. unfold eval, has_gradient.
  unfold bind. rewrite (attr_ok _ _ _ _ Ex'). cbn.
  rewrite Li. destruct (length batch); [lia|reflexivity].
Qed.

End Deferred.

(** ** Direct mode and the input-side gradient *)

Section Direct.
Context `{TileBackend}.

Lemma pair_direct_run st c t x ti inp w g it :
  objs st !! c = Some (OContext x) ->
  tiles st !! t = Some ti ->
  let ui := use_indexed x in
  let t1 := log_call (forward_call ui inp it) (shared_bound (Some w) ti) in
  let saved := saved_input (runtime ti) inp
                 :: forward_extra ui (shared_bound (Some w) ti) inp it in
  let tb := delta_bound ui (Some w) w g t1 in
  let xin := update_input t1 (saved_input (runtime ti) inp) in
  let buf := write_data (update_values ui tb xin g) (empty_like w) in
  (r <- forward c t inp (Some w) it ;; backward (fst r) g) st
  = (Ok (mkCall c t (Some w) [] saved,
         mkGrads None None
           (Some (backward_grad_input ui (shared_bound (Some w) t1) g saved))
           (Some buf) None),
     mkStore
       (<[c := OContext (set_use_torch_update true x)]> (objs st))
       (<[t := log_call CResetDeltaWeights
                 (set_tile_delta None
                    (log_call (update_call ui xin g)
                       (set_tile_delta (Some buf) tb)))]> (tiles st))).
Proof.
  intros E Et ui t1 saved tb xin buf. unfold bind at 1.
  rewrite (forward_run _ _ _ _ _ _ _ _ E Et). cbn [fst snd].
  erewrite backward_direct_run;
    [ | cbn; apply lookup_insert_eq | cbn; apply lookup_insert_eq
      | reflexivity | reflexivity | reflexivity ].
  cbn [objs tiles cs_analog_ctx cs_analog_tile].
  now rewrite !insert_insert_eq.
Qed.

(** C3. A forward/backward pair with shared weights [w] on a context with
    empty traces leaves the traces empty; the weight gradient returned by
    backward has the shape of [w]; the tile receives [set_delta_weights]
    just before the update call and [reset_delta_weights] after it, so
    that no delta-weight target is bound when backward returns. *)
Theorem direct_pair_gradient st c t x ti inp w g it :
  objs st !! c = Some (OContext x) ->
  tiles st !! t = Some ti ->
  analog_input x = [] ->
  analog_grad_output x = [] ->
  let m := (r <- forward c t inp (Some w) it ;; backward (fst r) g) in
  let ui := use_indexed x in
  exists cs gi gw x' ti' xin,
    eval m st = Ok (cs, mkGrads None None (Some gi) (Some gw) None) /\
    t_shape gw = t_shape w /\
    objs (exec m st) !! c = Some (OContext x') /\
    analog_input x' = [] /\ analog_grad_output x' = [] /\
    tiles (exec m st) !! t = Some ti' /\
    tile_delta ti' = None /\
    calls ti'
    = calls ti ++ [CEnsureSharedWeights w; forward_call ui inp it;
                   CEnsureSharedWeights w; backward_call ui g;
                   CSetDeltaWeights (empty_like w); update_call ui xin g;
                   CResetDeltaWeights].
Proof.
  intros E Et Hi Hg m ui. subst m.
  pose proof (pair_direct_run st c t x ti inp w g it E Et) as Hp.
  cbv zeta in Hp. fold ui in Hp.
  set (t1 := log_call (forward_call ui inp it) (shared_bound (Some w) ti))
    in Hp.
  set (sv := saved_input (runtime ti) inp
               :: forward_extra ui (shared_bound (Some w) ti) inp it) in Hp.
  set (xin := update_input t1 (saved_input (runtime ti) inp)) in Hp.
  set (buf := write_data
                (update_values ui (delta_bound ui (Some w) w g t1) xin g)
                (empty_like w)) in Hp.
  exists (mkCall c t (Some w) [] sv),
    (backward_grad_input ui (shared_bound (Some w) t1) g sv),
    buf, (set_use_torch_update true x),
    (log_call CResetDeltaWeights
       (set_tile_delta None
          (log_call (update_call ui xin g)
             (set_tile_delta (Some buf) (delta_bound ui (Some w) w g t1))))),
    xin.
  unfold eval, exec. rewrite Hp. cbn [fst snd objs tiles].
  split; [reflexivity|]. split; [reflexivity|].
  split; [apply lookup_insert_eq|].
  split; [exact Hi|]. split; [exact Hg|].
  split; [apply lookup_insert_eq|].
  split; [reflexivity|].
  subst t1. unfold delta_bound, shared_bound.
  cbn [calls log_call set_tile_delta set_tile_shared].
  now rewrite <- !app_assoc.
Qed.

(** C4, as the code has it.  Whatever the update mode, backward calls
    the backward routine of the tile once, the indexed one when
    [use_indexed] is set.  It returns the result of the routine in the
    third slot, the one of the input tensor, with the slots of context,
    tile and test flag empty, unless the context is in direct mode and the
    call object holds no shared weights: then it raises TypeError after
    the routine has run, and returns nothing. *)
Theorem backward_returns_input_gradient st cs g x ti inp rest :
  objs st !! cs_analog_ctx cs = Some (OContext x) ->
  tiles st !! cs_analog_tile cs = Some ti ->
  cs_saved_tensors cs = inp :: rest ->
  (exists ti',
     tiles (exec (backward cs g) st) !! cs_analog_tile cs = Some ti' /\
     filter (fun k => is_backward_call k) (calls ti')
     = filter (fun k => is_backward_call k) (calls ti)
       ++ [backward_call (use_indexed x) g]) /\
  if use_torch_update x && negb (has_shared (cs_shared_weights cs))
  then eval (backward cs g) st = Raise TypeError
  else
    exists cs' gw,
      eval (backward cs g) st
      = Ok (cs',
            mkGrads None None
              (Some (backward_grad_input (use_indexed x)
                       (shared_bound (cs_shared_weights cs) ti) g
                       (inp :: rest)))
              gw None) /\
      (gw = None <-> use_torch_update x = false).
Proof.
  intros E Et Es.
  destruct (use_torch_update x) eqn:Eu.
  - destruct (cs_shared_weights cs) as [w|] eqn:Ew; cbn [andb negb has_shared].
    + pose proof (backward_direct_run st cs g x ti inp rest w E Et Es Eu Ew)
        as Hp. cbv zeta in Hp.
      unfold eval, exec. rewrite Hp. cbn [fst snd tiles]. split.
      * eexists. split; [apply lookup_insert_eq|].
        unfold delta_bound, shared_bound, update_call, backward_call.
        destruct (use_indexed x); py_calls.
      * eexists _, (Some _). split; [reflexivity|]. split; discriminate.
    + pose proof (backward_direct_raise st cs g x ti inp rest E Et Es Eu Ew)
        as Hp.
      unfold eval, exec. rewrite Hp. cbn [fst snd tiles]. split.
      * eexists. split; [apply lookup_insert_eq|].
        unfold backward_call. destruct (use_indexed x); py_calls.
      * reflexivity.
  - pose proof (backward_deferred_run st cs g x ti inp rest E Et Es Eu) as Hp.
    unfold eval, exec. rewrite Hp. cbn [fst snd tiles andb]. split.
    + eexists. split; [apply lookup_insert_eq|].
      unfold shared_bound, backward_call.
      destruct (cs_shared_weights cs), (use_indexed x); py_calls.
    + eexists _, None. split; [reflexivity|]. split; reflexivity.
Qed.

End Direct.

(** ** Offloaded inputs and the flags read by backward *)

Section Flags.
Context `{TileBackend}.

(** C5, as the code has it.  With the input-offload flag set, forward
    saves the input on the host.  In direct mode backward moves it to the
    device of the tile before handing it to the update routine; in
    deferred mode the tensor appended to [analog_input] is the saved,
    host-resident input, and no update routine runs. *)
Theorem offloaded_input_in_backward st c t x ti inp sw g it :
  objs st !! c = Some (OContext x) ->
  tiles st !! t = Some ti ->
  offload_input (runtime ti) = true ->
  let m := (r <- forward c t inp sw it ;; backward (fst r) g) in
  exists x' ti',
    objs (exec m st) !! c = Some (OContext x') /\
    tiles (exec m st) !! t = Some ti' /\
    match sw with
    | Some w =>
        filter (fun k => is_update_call k) (calls ti')
        = filter (fun k => is_update_call k) (calls ti)
          ++ [update_call (use_indexed x)
                (tensor_to_device (device ti) (tensor_cpu inp)) g] /\
        t_device (tensor_to_device (device ti) (tensor_cpu inp)) = device ti /\
        same_traces x x'
    | None =>
        analog_input x' = analog_input x ++ [tensor_cpu inp] /\
        t_device (tensor_cpu inp) = Cpu /\
        filter (fun k => is_update_call k) (calls ti')
        = filter (fun k => is_update_call k) (calls ti)
    end.
Proof.
  intros E Et Eo m. subst m. unfold eval, exec.
  destruct sw as [w|].
  - rewrite (pair_direct_run _ _ _ _ _ _ _ _ _ E Et). cbn [fst snd objs tiles].
    eexists _, _. split; [apply lookup_insert_eq|].
    split; [apply lookup_insert_eq|].
    split; [|split; [reflexivity|split; reflexivity]].
    unfold update_input, saved_input, delta_bound, shared_bound.
    cbn [runtime log_call set_tile_shared set_tile_delta device calls].
    rewrite Eo. unfold forward_call, backward_call, update_call.
    destruct (use_indexed x); py_calls.
  - rewrite (pair_deferred_run _ _ _ _ _ _ _ _ E Et). cbn [fst snd objs tiles].
    eexists _, _. split; [apply lookup_insert_eq|].
    split; [apply lookup_insert_eq|].
    cbn [analog_input]. unfold saved_input. rewrite Eo.
    split; [reflexivity|]. split; [reflexivity|].
    unfold forward_call, backward_call.
    destruct (use_indexed x); py_calls.
Qed.

(** The store in which a backward runs when, after its own forward, the
    indexed flag was set to [v] and a second forward ran on the same
    context and tile. *)
Lemma interleaved_prefix {A} st c t x ti inp1 sw1 it1 v inp2 sw2 it2
    (k : CallState -> M A) :
  objs st !! c = Some (OContext x) ->
  tiles st !! t = Some ti ->
  let t1 := log_call (forward_call (use_indexed x) inp1 it1)
              (shared_bound sw1 ti) in
  let cs1 := mkCall c t sw1 []
               (saved_input (runtime ti) inp1
                  :: forward_extra (use_indexed x) (shared_bound sw1 ti)
                       inp1 it1) in
  (r1 <- forward c t inp1 sw1 it1 ;;
   set_indexed c v ;;
   r2 <- forward c t inp2 sw2 it2 ;;
   k (fst r1)) st
  = k cs1
      (mkStore
         (<[c := OContext
                   (mkContext (data x) (requires_grad x) (analog_tile x)
                      (has_shared sw2) v (analog_input x)
                      (analog_grad_output x))]> (objs st))
         (<[t := log_call (forward_call v inp2 it2) (shared_bound sw2 t1)]>
            (tiles st))).
Proof.
  intros E Et t1 cs1.
  rewrite (bind_ok _ _ _ _ _ (forward_run _ _ _ _ _ _ _ _ E Et)).
  unfold set_indexed.
  erewrite bind_ok
    by (eapply update_context_ok; cbn [objs]; apply lookup_insert_eq).
  erewrite bind_ok
    by (eapply forward_run; cbn [objs tiles]; apply lookup_insert_eq).
  cbn [fst snd objs tiles use_indexed set_use_indexed set_use_torch_update
       runtime data requires_grad analog_tile analog_input
       analog_grad_output].
  rewrite !insert_insert_eq.
  assert (Er : runtime (log_call (forward_call (use_indexed x) inp1 it1)
                          (shared_bound sw1 ti)) = runtime ti)
    by (destruct sw1; reflexivity).
  reflexivity.
Qed.

(** C10. Backward reads [use_indexed] and [use_torch_update] from the
    context when it runs.  After [forward] with [sw1], then
    [set_indexed v], then a second [forward] with [sw2] on the same
    context, the backward of the first call uses the routine selected by
    [v] and the update mode selected by [sw2]: deferred when [sw2] is
    absent, even if the first call had shared weights; direct when [sw2]
    is present, which raises when the first call saved no shared
    weights. *)
Theorem backward_follows_current_flags
    st c t x ti inp1 sw1 it1 v inp2 sw2 it2 g :
  objs st !! c = Some (OContext x) ->
  tiles st !! t = Some ti ->
  let m := (r1 <- forward c t inp1 sw1 it1 ;;
            set_indexed c v ;;
            r2 <- forward c t inp2 sw2 it2 ;;
            backward (fst r1) g) in
  exists x' ti',
    objs (exec m st) !! c = Some (OContext x') /\
    tiles (exec m st) !! t = Some ti' /\
    filter (fun k => is_backward_call k) (calls ti')
    = filter (fun k => is_backward_call k) (calls ti) ++ [backward_call v g] /\
    match sw2, sw1 with
    | None, _ =>
        (exists cs gi,
           eval m st = Ok (cs, mkGrads None None (Some gi) None None)) /\
        analog_input x' = analog_input x ++ [saved_input (runtime ti) inp1] /\
        analog_grad_output x'
        = analog_grad_output x ++ [stored_gradient (runtime ti) g] /\
        filter (fun k => is_update_call k) (calls ti')
        = filter (fun k => is_update_call k) (calls ti)
    | Some _, Some w1 =>
        (exists cs gi gw,
           eval m st = Ok (cs, mkGrads None None (Some gi) (Some gw) None) /\
           t_shape gw = t_shape w1) /\
        same_traces x x' /\
        exists xin,
          filter (fun k => is_update_call k) (calls ti')
          = filter (fun k => is_update_call k) (calls ti)
            ++ [update_call v xin g]
    | Some _, None =>
        eval m st = Raise TypeError /\
        same_traces x x' /\
        filter (fun k => is_update_call k) (calls ti')
        = filter (fun k => is_update_call k) (calls ti)
    end.
Proof.
  intros E Et m. subst m. unfold eval, exec.
  rewrite (interleaved_prefix st c t x ti inp1 sw1 it1 v inp2 sw2 it2
             (fun cs => backward cs g) E Et).
  cbv zeta.
  set (t1 := log_call (forward_call (use_indexed x) inp1 it1)
               (shared_bound sw1 ti)).
  set (sv := saved_input (runtime ti) inp1
               :: forward_extra (use_indexed x) (shared_bound sw1 ti)
                    inp1 it1).
  assert (Er : runtime (log_call (forward_call v inp2 it2)
                          (shared_bound sw2 t1)) = runtime ti)
    by (subst t1; destruct sw1, sw2; reflexivity).
  destruct sw2 as [w2|].
  - destruct sw1 as [w1|].
    + erewrite backward_direct_run;
        [ | cbn; apply lookup_insert_eq | cbn; apply lookup_insert_eq
          | reflexivity | reflexivity | reflexivity ].
      cbn [fst snd objs tiles cs_analog_ctx cs_analog_tile use_indexed].
      rewrite !insert_insert_eq.
      eexists _, _. split; [apply lookup_insert_eq|].
      split; [apply lookup_insert_eq|].
      subst t1. unfold delta_bound, shared_bound.
      unfold forward_call, backward_call, update_call.
      split; [destruct v, (use_indexed x); py_calls|].
      split; [eexists _, _, _; split; reflexivity|].
      split; [split; reflexivity|].
      eexists. destruct v, (use_indexed x); py_calls.
    + erewrite backward_direct_raise;
        [ | cbn; apply lookup_insert_eq | cbn; apply lookup_insert_eq
          | reflexivity | reflexivity | reflexivity ].
      cbn [fst snd objs tiles cs_analog_ctx cs_analog_tile use_indexed].
      rewrite !insert_insert_eq.
      eexists _, _. split; [apply lookup_insert_eq|].
      split; [apply lookup_insert_eq|].
      subst t1. unfold shared_bound.
      unfold forward_call, backward_call.
      split; [destruct v, (use_indexed x); py_calls|].
      split; [reflexivity|].
      split; [split; reflexivity|].
      destruct v, (use_indexed x); py_calls.
  - erewrite backward_deferred_run;
      [ | cbn; apply lookup_insert_eq | cbn; apply lookup_insert_eq
        | reflexivity | reflexivity ].
    cbn [fst snd objs tiles cs_analog_ctx cs_analog_tile use_indexed
         cs_shared_weights].
    rewrite !insert_insert_eq. unfold shared_bound at 1 in Er. rewrite Er.
    cbn [data requires_grad analog_tile analog_input analog_grad_output].
    eexists _, _. split; [apply lookup_insert_eq|].
    split; [apply lookup_insert_eq|].
    subst t1. unfold shared_bound.
    unfold forward_call, backward_call.
    split; [destruct sw1, v, (use_indexed x); py_calls|].
    split; [eexists _, _; reflexivity|].
    split; [reflexivity|]. split; [reflexivity|].
    destruct sw1, v, (use_indexed x); py_calls.
Qed.

End Flags.

(** ** The context: reset, construction, copies and host moves *)

Section ContextFacts.
Context `{TileBackend}.

(** C6. [reset] empties both traces whatever they held; given a tile, it
    also makes the context refer to that tile and the tile refer back to
    the context. *)
Theorem reset_clears_and_rebinds st self x :
  objs st !! self = Some (OContext x) ->
  (eval (reset self None) st = Ok tt /\
   objs (exec (reset self None) st) !! self
   = Some (OContext
             (mkContext (data x) (requires_grad x) (analog_tile x)
                (use_torch_update x) (use_indexed x) [] []))) /\
  (forall t ti,
     tiles st !! t = Some ti ->
     eval (reset self (Some t)) st = Ok tt /\
     objs (exec (reset self (Some t)) st) !! self
     = Some (OContext
               (mkContext (data x) (requires_grad x) (Some t)
                  (use_torch_update x) (use_indexed x) [] [])) /\
     exists ti',
       tiles (exec (reset self (Some t)) st) !! t = Some ti' /\
       analog_ctx ti' = Some self).
Proof.
  intros E. split.
  - unfold eval, exec. rewrite (reset_none_run _ _ _ E). cbn.
    split; [reflexivity | apply lookup_insert_eq].
  - intros t ti Et. unfold eval, exec.
    rewrite (reset_some_run _ _ _ _ _ E Et). cbn [fst snd objs tiles].
    split; [reflexivity|]. split; [apply lookup_insert_eq|].
    eexists. split; [apply lookup_insert_eq | reflexivity].
Qed.

Lemma fresh_obj_unused st : objs st !! fresh (dom (objs st)) = None.
Proof. apply not_elem_of_dom. apply is_fresh. Qed.

Lemma alloc_obj_run st o :
  alloc_obj o st
  = (Ok (fresh (dom (objs st))),
     mkStore (<[fresh (dom (objs st)) := o]> (objs st)) (tiles st)).
Proof. reflexivity. Qed.

(** C7. [__copy__] and [__deepcopy__] of a context return a new plain
    parameter holding the data of the context at that moment; it has no
    tile and no traces, and the context and the tiles are untouched. *)
Theorem copy_is_plain_snapshot st self x m :
  objs st !! self = Some (OContext x) ->
  m = copy_ self \/ m = deepcopy_ self ->
  exists r,
    eval m st = Ok r /\
    objs st !! r = None /\
    objs (exec m st) !! r = Some (OParameter (mkParameter (data x) true)) /\
    objs (exec m st) !! self = Some (OContext x) /\
    tiles (exec m st) = tiles st.
Proof.
  intros E Hm. exists (fresh (dom (objs st))).
  assert (Hne : fresh (dom (objs st)) <> self).
  { intros Heq. pose proof (fresh_obj_unused st) as Hf.
    rewrite Heq in Hf. congruence. }
  assert (Hrun : m st = (Ok (fresh (dom (objs st))),
             mkStore (<[fresh (dom (objs st)) :=
                          OParameter (mkParameter (data x) true)]> (objs st))
               (tiles st))).
  { destruct Hm as [-> | ->]; unfold copy_, deepcopy_;
      rewrite (bind_ok _ _ _ _ _ (attr_ok _ _ _ _ E)); apply alloc_obj_run. }
  unfold eval, exec. rewrite Hrun. cbn [fst snd objs tiles].
  split; [reflexivity|]. split; [apply fresh_obj_unused|].
  split; [apply lookup_insert_eq|].
  split; [|reflexivity].
  rewrite lookup_insert_ne by exact Hne. exact E.
Qed.

Lemma tensor_to_idem args kw d :
  tensor_to args kw (tensor_to args kw d) = tensor_to args kw d.
Proof.
  unfold tensor_to.
  destruct (to_target_device args kw), (to_target_dtype args kw);
    reflexivity.
Qed.

Lemma cpu_host_run st self x t ti :
  objs st !! self = Some (OContext x) ->
  analog_tile x = Some t ->
  tiles st !! t = Some ti ->
  is_cuda ti = false ->
  cpu self st
  = (Ok self,
     mkStore (<[self := OContext (set_data_attr (tensor_cpu (data x)) x)]>
                (objs st)) (tiles st)).
Proof.
  intros E Ea Et Ec. unfold cpu. py_run. rewrite Ea. py_run. reflexivity.
Qed.

Lemma to_host_run st self x t ti args kw :
  objs st !! self = Some (OContext x) ->
  analog_tile x = Some t ->
  tiles st !! t = Some ti ->
  is_cuda ti = false ->
  to_device_arg args kw = Some Cpu ->
  to self args kw st
  = (Ok self,
     mkStore (<[self := OContext (set_data_attr (tensor_to args kw (data x)) x)]>
                (objs st)) (tiles st)).
Proof.
  intros E Ea Et Ec Ed. unfold to, bound_tile. rewrite Ed.
  py_run. rewrite Ea. py_run. reflexivity.
Qed.

(** C8. On a context whose tile is on the host, [cpu] and a [to] aimed at
    the host leave traces, flags and tile reference as they are, do not
    touch the tile (no [reset], no rebinding), and are idempotent. *)
Theorem host_move_is_noop st self x t ti :
  objs st !! self = Some (OContext x) ->
  analog_tile x = Some t ->
  tiles st !! t = Some ti ->
  is_cuda ti = false ->
  binding_kept (cpu self) st self x /\
  (forall args kw,
     to_device_arg args kw = Some Cpu ->
     binding_kept (to self args kw) st self x).
Proof.
  intros E Ea Et Ec. split.
  - pose proof (cpu_host_run st self x t ti E Ea Et Ec) as Hr.
    unfold binding_kept, eval, exec. rewrite Hr. cbn [fst snd objs tiles].
    split; [reflexivity|]. split; [reflexivity|]. split.
    + eexists. split; [apply lookup_insert_eq|]. repeat split.
    + erewrite cpu_host_run;
        [ | cbn [objs]; apply lookup_insert_eq | exact Ea | exact Et
          | exact Ec ].
      cbn [fst snd objs tiles]. now rewrite insert_insert_eq.
  - intros args kw Ed.
    pose proof (to_host_run st self x t ti args kw E Ea Et Ec Ed) as Hr.
    unfold binding_kept, eval, exec. rewrite Hr. cbn [fst snd objs tiles].
    split; [reflexivity|]. split; [reflexivity|]. split.
    + eexists. split; [apply lookup_insert_eq|]. repeat split.
    + erewrite to_host_run;
        [ | cbn [objs]; apply lookup_insert_eq | exact Ea | exact Et
          | exact Ec | exact Ed ].
      cbn [fst snd objs tiles]. rewrite insert_insert_eq.
      unfold set_data_attr. cbn [data requires_grad analog_tile
        use_torch_update use_indexed analog_input analog_grad_output].
      now rewrite tensor_to_idem.
Qed.

Lemma init_run st self x t ti :
  objs st !! self = Some (OContext x) ->
  tiles st !! t = Some ti ->
  init_ self t st
  = (Ok tt,
     mkStore
       (<[self := OContext
                    (mkContext (data x) (requires_grad x) (Some t) false
                       false [] [])]> (objs st))
       (<[t := set_analog_ctx (Some self) ti]> (tiles st))).
Proof.
  intros E Et. unfold init_, reset, bound_tile. py_run. reflexivity.
Qed.

Lemma new_fresh_run st t ti :
  tiles st !! t = Some ti ->
  new_ t None st
  = (Ok (fresh (dom (objs st))),
     mkStore
       (<[fresh (dom (objs st)) := OContext (blank_context (tile_weights ti) true)]>
          (objs st)) (tiles st)).
Proof.
  intros Et. unfold new_, get_weights.
  rewrite (bind_ok _ _ _ _ _ (bind_ok _ _ _ _ _ (load_tile_ok _ _ _ Et))).
  apply alloc_obj_run.
Qed.

Lemma new_attach_run st t p o :
  objs st !! p = Some o ->
  new_ t (Some p) st
  = (Ok p,
     mkStore
       (<[p := OContext
                 (match o with
                  | OParameter q =>
                      blank_context (p_data q) (p_requires_grad q)
                  | OContext x0 => x0
                  end)]> (objs st)) (tiles st)).
Proof.
  intros Ep. unfold new_, load_obj, bind, store_obj, ret. rewrite Ep.
  destruct o as [q|x0]; [reflexivity|].
  rewrite insert_id by exact Ep. now destruct st.
Qed.

Lemma construct_fresh_run st t ti :
  tiles st !! t = Some ti ->
  construct t None st
  = (Ok (fresh (dom (objs st))),
     mkStore
       (<[fresh (dom (objs st)) :=
            OContext
              (mkContext (tile_weights ti) true (Some t) false false [] [])]>
          (objs st))
       (<[t := set_analog_ctx (Some (fresh (dom (objs st)))) ti]> (tiles st))).
Proof.
  intros Et. unfold construct.
  rewrite (bind_ok _ _ _ _ _ (new_fresh_run _ _ _ Et)).
  erewrite bind_ok
    by (eapply init_run; cbn [objs tiles];
        [apply lookup_insert_eq | exact Et]).
  unfold ret. cbn [objs tiles blank_context data requires_grad].
  now rewrite insert_insert_eq.
Qed.

Lemma construct_attach_run st t ti p o :
  tiles st !! t = Some ti ->
  objs st !! p = Some o ->
  construct t (Some p) st
  = (Ok p,
     mkStore
       (<[p := OContext
                 (match o with
                  | OParameter q =>
                      mkContext (p_data q) (p_requires_grad q) (Some t)
                        false false [] []
                  | OContext x0 =>
                      mkContext (data x0) (requires_grad x0) (Some t)
                        false false [] []
                  end)]> (objs st))
       (<[t := set_analog_ctx (Some p) ti]> (tiles st))).
Proof.
  intros Et Ep. unfold construct.
  rewrite (bind_ok _ _ _ _ _ (new_attach_run _ t _ _ Ep)).
  erewrite bind_ok
    by (eapply init_run; cbn [objs tiles];
        [apply lookup_insert_eq | exact Et]).
  unfold ret. cbn [objs tiles]. rewrite insert_insert_eq.
  now destruct o.
Qed.

(** C9, as the code has it.  The constructor returns a context that
    refers to the given tile, which refers back to it, with both flags
    cleared and empty traces.  Without a parameter the context is a new
    object holding the weights of the tile and is gradient-tracked; with
    a parameter the context is that same object and keeps its data and
    its requires-gradient flag, whatever it was. *)
Theorem construct_binds_tile st t ti parameter :
  tiles st !! t = Some ti ->
  match parameter with
  | Some p => is_Some (objs st !! p)
  | None => True
  end ->
  exists self x' ti',
    eval (construct t parameter) st = Ok self /\
    objs (exec (construct t parameter) st) !! self = Some (OContext x') /\
    tiles (exec (construct t parameter) st) !! t = Some ti' /\
    analog_tile x' = Some t /\
    analog_ctx ti' = Some self /\
    no_traces x' /\
    use_indexed x' = false /\ use_torch_update x' = false /\
    match parameter with
    | None =>
        objs st !! self = None /\
        requires_grad x' = true /\ data x' = tile_weights ti
    | Some p =>
        self = p /\
        match objs st !! p with
        | Some (OParameter q) =>
            requires_grad x' = p_requires_grad q /\ data x' = p_data q
        | Some (OContext x0) =>
            requires_grad x' = requires_grad x0 /\ data x' = data x0
        | None => False
        end
    end.
Proof.
  intros Et Hp. destruct parameter as [p|].
  - destruct Hp as [o Ep].
    unfold eval, exec. rewrite (construct_attach_run _ _ _ _ _ Et Ep).
    cbn [fst snd objs tiles]. rewrite Ep.
    eexists _, _, _. split; [reflexivity|].
    split; [apply lookup_insert_eq|]. split; [apply lookup_insert_eq|].
    destruct o; repeat split.
  - unfold eval, exec. rewrite (construct_fresh_run _ _ _ Et).
    cbn [fst snd objs tiles].
    eexists _, _, _. split; [reflexivity|].
    split; [apply lookup_insert_eq|]. split; [apply lookup_insert_eq|].
    repeat split. apply fresh_obj_unused.
Qed.

End ContextFacts.

(** ** The traces under every call *)

Section Frame.
Context `{TileBackend}.

Lemma same_traces_refl x : same_traces x x.
Proof. split; reflexivity. Qed.

Lemma keeps_except_refl s st : keeps_except s st st.
Proof.
  split.
  - intros r x E. exists x. split; [exact E|]. left. apply same_traces_refl.
  - intros r x' E. left. now exists x'.
Qed.

Lemma keeps_except_trans s st1 st2 st3 :
  keeps_except s st1 st2 -> keeps_except s st2 st3 -> keeps_except s st1 st3.
Proof.
  intros [A1 B1] [A2 B2]. split.
  - intros r x E1.
    destruct (A1 r x E1) as (x2 & E2 & H12).
    destruct (A2 r x2 E2) as (x3 & E3 & H23).
    exists x3. split; [exact E3|].
    destruct H12 as [[Hi Hg]|[Hs [Hi Hg]]], H23 as [[Hi' Hg']|[Hs' [Hi' Hg']]].
    + left. split; congruence.
    + right. split; [exact Hs'|]. split; assumption.
    + right. split; [exact Hs|]. split; congruence.
    + right. split; [exact Hs'|]. split; assumption.
  - intros r x3 E3.
    destruct (B2 r x3 E3) as [[x2 E2]|Hn]; [|right; exact Hn].
    destruct (B1 r x2 E2) as [Hx|[Hs [Hi Hg]]]; [left; exact Hx|].
    right. split; [exact Hs|].
    destruct (A2 r x2 E2) as (x3' & E3' & H23).
    assert (x3' = x3) by congruence. subst x3'.
    destruct H23 as [[Hi' Hg']|[_ Hn]]; [|exact Hn].
    split; congruence.
Qed.

Lemma exec_bind {A B} (m : M A) (f : A -> M B) st :
  exec (bind m f) st
  = match eval m st with
    | Ok a => exec (f a) (exec m st)
    | Raise _ => exec m st
    end.
Proof.
  unfold exec, eval, bind. destruct (m st) as [[a|e] st']; reflexivity.
Qed.

Lemma exec_then_ret {A} (m : M A) st : exec (m ;; ret tt) st = exec m st.
Proof.
  rewrite exec_bind. destruct (eval m st); reflexivity.
Qed.

Lemma preserves_bind {A B} s (m : M A) (f : A -> M B) :
  preserves (keeps_except s) m ->
  (forall a, preserves (keeps_except s) (f a)) ->
  preserves (keeps_except s) (bind m f).
Proof.
  intros Hm Hf st. rewrite exec_bind.
  destruct (eval m st) as [a|e]; [|apply Hm].
  eapply keeps_except_trans; [apply Hm | apply Hf].
Qed.

Lemma preserves_ret {A} s (a : A) : preserves (keeps_except s) (ret a).
Proof. intros st. apply keeps_except_refl. Qed.

Lemma preserves_raise {A} s e : preserves (keeps_except s) (@raise A e).
Proof. intros st. apply keeps_except_refl. Qed.

Lemma preserves_load_obj s r : preserves (keeps_except s) (load_obj r).
Proof.
  intros st. unfold exec, load_obj.
  destruct (objs st !! r); apply keeps_except_refl.
Qed.

Lemma preserves_load_context s r :
  preserves (keeps_except s) (load_context r).
Proof.
  intros st. unfold exec, load_context.
  destruct (objs st !! r) as [[?|?]|]; apply keeps_except_refl.
Qed.

Lemma preserves_attr {A} s r (field : AnalogContext -> A) :
  preserves (keeps_except s) (attr r field).
Proof.
  apply preserves_bind; [apply preserves_load_context|].
  intros x. apply preserves_ret.
Qed.

Lemma preserves_load_tile s t : preserves (keeps_except s) (load_tile t).
Proof.
  intros st. unfold exec, load_tile.
  destruct (tiles st !! t); apply keeps_except_refl.
Qed.

Lemma preserves_update_tile s t f :
  preserves (keeps_except s) (update_tile t f).
Proof.
  intros st. unfold exec, update_tile.
  destruct (tiles st !! t); [|apply keeps_except_refl].
  cbn. split.
  - intros r x E. exists x. split; [exact E|]. left. apply same_traces_refl.
  - intros r x' E. left. now exists x'.
Qed.

(** Replacing the object [r], a context [x], by a context [y]. *)
Lemma keeps_except_store s st r x y :
  objs st !! r = Some (OContext x) ->
  same_traces x y \/ (s = Some r /\ no_traces y) ->
  keeps_except s st (mkStore (<[r := OContext y]> (objs st)) (tiles st)).
Proof.
  intros E Hy. split; cbn [objs].
  - intros r0 x0 E0. destruct (decide (r0 = r)) as [->|Hne].
    + rewrite lookup_insert_eq. exists y. split; [reflexivity|].
      assert (x0 = x) by congruence. now subst x0.
    + rewrite lookup_insert_ne by congruence. exists x0.
      split; [exact E0|]. left. apply same_traces_refl.
  - intros r0 x' E'. destruct (decide (r0 = r)) as [->|Hne].
    + left. now exists x.
    + rewrite lookup_insert_ne in E' by congruence. left. now exists x'.
Qed.

Lemma preserves_update_context s r f :
  (forall x, same_traces x (f x)) ->
  preserves (keeps_except s) (update_context r f).
Proof.
  intros Hf st. unfold exec, update_context, bind, load_context, store_obj.
  destruct (objs st !! r) as [[q|x]|] eqn:E; cbn [snd];
    try apply keeps_except_refl.
  eapply keeps_except_store; [exact E|]. left. apply Hf.
Qed.

(** The two assignments that empty the traces, taken together. *)
Lemma preserves_clear_then {A} r (k : M A) :
  preserves (keeps_except (Some r)) k ->
  preserves (keeps_except (Some r))
    (update_context r (set_analog_input []) ;;
     update_context r (set_analog_grad_output []) ;; k).
Proof.
  intros Hk st. unfold exec.
  destruct (objs st !! r) as [[q|x]|] eqn:E.
  - unfold bind, update_context, bind, load_context. rewrite E. cbn.
    apply keeps_except_refl.
  - erewrite bind_ok by (eapply update_context_ok; exact E).
    erewrite bind_ok
      by (eapply update_context_ok; cbn [objs]; apply lookup_insert_eq).
    cbn [objs tiles]. rewrite insert_insert_eq.
    eapply keeps_except_trans; [|apply Hk].
    eapply keeps_except_store; [exact E|]. right. repeat split.
  - unfold bind, update_context, bind, load_context. rewrite E. cbn.
    apply keeps_except_refl.
Qed.

Lemma preserves_clear r :
  preserves (keeps_except (Some r))
    (update_context r (set_analog_input []) ;;
     update_context r (set_analog_grad_output [])).
Proof.
  intros st.
  pose proof (preserves_clear_then r (ret tt) (preserves_ret _ tt) st) as Hk.
  unfold exec in *. unfold bind in *.
  destruct (update_context r (set_analog_input []) st) as [[[]|e] s1];
    [|exact Hk].
  destruct (update_context r (set_analog_grad_output []) s1) as [[[]|e] s2];
    exact Hk.
Qed.

Lemma preserves_alloc_parameter s p :
  preserves (keeps_except s) (alloc_obj (OParameter p)).
Proof.
  intros st. unfold exec, alloc_obj. cbn [snd].
  pose proof (fresh_obj_unused st) as Hf.
  split; cbn [objs].
  - intros r x E. exists x. split; [|left; apply same_traces_refl].
    rewrite lookup_insert_ne; [exact E|]. intros Heq. rewrite Heq in Hf.
    congruence.
  - intros r x' E'. left. exists x'.
    destruct (decide (fresh (dom (objs st)) = r)) as [<-|Hne].
    + rewrite lookup_insert_eq in E'. discriminate.
    + now rewrite lookup_insert_ne in E' by exact Hne.
Qed.

End Frame.

Ltac pres_step :=
  first
    [ apply preserves_clear_then
    | apply preserves_clear
    | apply preserves_ret
    | apply preserves_raise
    | apply preserves_attr
    | apply preserves_load_tile
    | apply preserves_load_context
    | apply preserves_load_obj
    | apply preserves_update_tile
    | apply preserves_update_context; intros ?; split; reflexivity
    | apply preserves_alloc_parameter
    | apply preserves_bind; [ | intros ? ]
    | match goal with
      | |- preserves _ (match ?e with _ => _ end) => destruct e
      end
    | progress cbv beta zeta ].

Ltac pres :=
  py_unfold_tile; unfold bound_tile; repeat pres_step.

Section Preservation.
Context `{TileBackend}.

Lemma preserves_reset self arg :
  preserves (keeps_except (Some self)) (reset self arg).
Proof. unfold reset. pres. Qed.

Lemma preserves_init self t :
  preserves (keeps_except (Some self)) (init_ self t).
Proof. unfold init_. pres. Qed.

Lemma preserves_set_indexed s self v :
  preserves (keeps_except s) (set_indexed self v).
Proof. unfold set_indexed. pres. Qed.

Lemma preserves_set_data s self d :
  preserves (keeps_except s) (set_data self d).
Proof. unfold set_data. pres. Qed.

Lemma preserves_get_data s self : preserves (keeps_except s) (get_data self).
Proof. unfold get_data. pres. Qed.

Lemma preserves_has_gradient s self :
  preserves (keeps_except s) (has_gradient self).
Proof. unfold has_gradient. pres. Qed.

Lemma preserves_copy s self : preserves (keeps_except s) (copy_ self).
Proof. unfold copy_. pres. Qed.

Lemma preserves_deepcopy s self :
  preserves (keeps_except s) (deepcopy_ self).
Proof. unfold deepcopy_. pres. Qed.

Lemma preserves_cuda self dev :
  preserves (keeps_except (Some self)) (cuda self dev).
Proof. unfold cuda. pres. Qed.

Lemma preserves_cpu self :
  preserves (keeps_except (Some self)) (cpu self).
Proof. unfold cpu. pres. Qed.

Lemma preserves_to self args kw :
  preserves (keeps_except (Some self)) (to self args kw).
Proof.
  unfold to. pres.
Qed.

Lemma preserves_forward s c t inp sw it :
  preserves (keeps_except s) (forward c t inp sw it).
Proof. unfold forward. pres. Qed.

End Preservation.

Section Effect.
Context `{TileBackend}.

Lemma effect_of_keeps o s st st' :
  keeps_except s st st' ->
  (forall r x,
     s = Some r -> objs st !! r = Some (OContext x) ->
     calls_reset o r = true) ->
  trace_effect o st st'.
Proof.
  intros [A B] Hs. split.
  - intros r x E. destruct (A r x E) as (x' & E' & [Hk|[Hr Hn]]).
    + exists x'. split; [exact E'|]. now left.
    + exists x'. split; [exact E'|]. right. left.
      split; [exact Hn|]. eapply Hs; eassumption.
  - intros r x' E'. destruct (B r x' E') as [Hx|[_ Hn]];
      [now left | now right].
Qed.

Lemma aligned_of_effect o st st' :
  traces_aligned st -> trace_effect o st st' -> traces_aligned st'.
Proof.
  intros Ha [A B] r o' E'. destruct o' as [q|x']; [exact I|]. cbn.
  destruct (B r x' E') as [[x E]|[Hi Hg]]; [|now rewrite Hi, Hg].
  pose proof (Ha r _ E) as Hx. cbn in Hx.
  destruct (A r x E) as (x'' & E'' & Hc).
  assert (x'' = x') by congruence. subst x''.
  destruct Hc as [[Hi Hg]|[[[Hi Hg] _]|(cs & g & i & e & _ & _ & _ & Hi & Hg)]].
  - now rewrite Hi, Hg.
  - now rewrite Hi, Hg.
  - rewrite Hi, Hg, !length_app. cbn. lia.
Qed.

Lemma keeps_of_same_objs st st' :
  objs st' = objs st -> keeps_except None st st'.
Proof.
  intros Eo. split; rewrite Eo.
  - intros r x E. exists x. split; [exact E|]. left. apply same_traces_refl.
  - intros r x' E'. left. now exists x'.
Qed.

Lemma backward_effect cs g st :
  trace_effect (OpBackward cs g) st (exec (backward cs g) st).
Proof.
  destruct (cs_saved_tensors cs) as [|inp rest] eqn:Es.
  { replace (exec (backward cs g) st) with st.
    - apply (effect_of_keeps _ None); [apply keeps_except_refl | discriminate].
    - unfold exec, backward, bind, first_item. cbn. now rewrite Es. }
  destruct (tiles st !! cs_analog_tile cs) as [ti|] eqn:Et.
  2:{ replace (exec (backward cs g) st) with st.
      - apply (effect_of_keeps _ None); [apply keeps_except_refl | discriminate].
      - unfold exec, backward, bind, first_item, get_runtime, bind, load_tile,
          ret. cbn. rewrite Es, Et. reflexivity. }
  destruct (objs st !! cs_analog_ctx cs) as [[q|x]|] eqn:E.
  1,3: replace (exec (backward cs g) st) with st;
    [ apply (effect_of_keeps _ None); [apply keeps_except_refl | discriminate]
    | unfold exec, backward, bind, first_item, get_runtime, bind, load_tile,
        attr, bind, load_context, ret; cbn; rewrite Es, Et, E; reflexivity ].
  destruct (use_torch_update x) eqn:Eu.
  - apply (effect_of_keeps _ None); [|discriminate].
    apply keeps_of_same_objs. unfold exec.
    destruct (cs_shared_weights cs) as [w|] eqn:Ew.
    + pose proof (backward_direct_run st cs g x ti inp rest w E Et Es Eu Ew)
        as Hp. cbv zeta in Hp. now rewrite Hp.
    + now rewrite (backward_direct_raise st cs g x ti inp rest E Et Es Eu Ew).
  - unfold exec.
    rewrite (backward_deferred_run st cs g x ti inp rest E Et Es Eu).
    cbn [snd]. split; cbn [objs].
    + intros r x0 E0. destruct (decide (r = cs_analog_ctx cs)) as [->|Hne].
      * rewrite lookup_insert_eq. eexists. split; [reflexivity|].
        assert (x0 = x) by congruence. subst x0.
        right. right. exists cs, g, inp, (stored_gradient (runtime ti) g).
        repeat split. exact Eu.
      * rewrite lookup_insert_ne by congruence. exists x0.
        split; [exact E0|]. left. apply same_traces_refl.
    + intros r x' E'. destruct (decide (r = cs_analog_ctx cs)) as [->|Hne].
      * left. now exists x.
      * rewrite lookup_insert_ne in E' by congruence. left. now exists x'.
Qed.

Lemma construct_effect t parameter st :
  trace_effect (OpConstruct t parameter) st
    (exec (construct t parameter) st).
Proof.
  destruct parameter as [p|].
  - apply (effect_of_keeps _ (Some p));
      [|intros r x [= ->] _; cbn; apply Nat.eqb_refl].
    destruct (objs st !! p) as [o|] eqn:Ep.
    + unfold construct. rewrite exec_bind. unfold eval, exec.
      rewrite (new_attach_run st t p o Ep). cbn [fst snd].
      eapply keeps_except_trans.
      2:{ apply (preserves_bind (Some p) (init_ p t) (fun _ => ret p));
            [apply preserves_init | intros; apply preserves_ret]. }
      destruct o as [q|x0].
      * split; cbn [objs].
        -- intros r x E. exists x. split; [|left; apply same_traces_refl].
           rewrite lookup_insert_ne; [exact E|]. intros ->. congruence.
        -- intros r x' E'. destruct (decide (p = r)) as [<-|Hne].
           ++ rewrite lookup_insert_eq in E'. injection E' as <-.
              right. repeat split.
           ++ rewrite lookup_insert_ne in E' by exact Hne.
              left. now exists x'.
      * eapply keeps_except_store; [exact Ep|]. left.
        apply same_traces_refl.
    + replace (exec (construct t (Some p)) st) with st;
        [apply keeps_except_refl|].
      unfold exec, construct, bind, new_, bind, load_obj. now rewrite Ep.
  - destruct (tiles st !! t) as [ti|] eqn:Et.
    + apply (effect_of_keeps _ (Some (fresh (dom (objs st))))).
      2:{ intros r x [= <-] E. pose proof (fresh_obj_unused st). congruence. }
      unfold exec. rewrite (construct_fresh_run st t ti Et). cbn [snd].
      pose proof (fresh_obj_unused st) as Hf.
      split; cbn [objs].
      * intros r x E. exists x. split; [|left; apply same_traces_refl].
        rewrite lookup_insert_ne; [exact E|]. intros Heq.
        rewrite Heq in Hf. congruence.
      * intros r x' E'.
        destruct (decide (fresh (dom (objs st)) = r)) as [<-|Hne].
        -- rewrite lookup_insert_eq in E'. injection E' as <-.
           right. repeat split.
        -- rewrite lookup_insert_ne in E' by exact Hne. left. now exists x'.
    + replace (exec (construct t None) st) with st.
      * apply (effect_of_keeps _ None);
          [apply keeps_except_refl | discriminate].
      * unfold exec, construct, bind, new_, get_weights, bind, load_tile.
        now rewrite Et.
Qed.

Lemma run_op_effect o st : trace_effect o st (exec (run_op o) st).
Proof.
  destruct o; cbn [run_op]; rewrite ?exec_then_ret.
  - apply construct_effect.
  - apply (effect_of_keeps _ (Some self)); [apply preserves_reset|].
    intros r x [= ->] _. cbn. apply Nat.eqb_refl.
  - apply (effect_of_keeps _ None); [apply preserves_set_indexed|discriminate].
  - apply (effect_of_keeps _ None); [apply preserves_set_data|discriminate].
  - apply (effect_of_keeps _ None); [apply preserves_get_data|discriminate].
  - apply (effect_of_keeps _ None);
      [apply preserves_has_gradient|discriminate].
  - apply (effect_of_keeps _ None); [apply preserves_copy|discriminate].
  - apply (effect_of_keeps _ None); [apply preserves_deepcopy|discriminate].
  - apply (effect_of_keeps _ (Some self)); [apply preserves_cuda|].
    intros r x [= ->] _. cbn. apply Nat.eqb_refl.
  - apply (effect_of_keeps _ (Some self)); [apply preserves_cpu|].
    intros r x [= ->] _. cbn. apply Nat.eqb_refl.
  - apply (effect_of_keeps _ (Some self)); [apply preserves_to|].
    intros r x [= ->] _. cbn. apply Nat.eqb_refl.
  - apply (effect_of_keeps _ None); [apply preserves_forward|discriminate].
  - apply backward_effect.
Qed.

(** C2, as the code has it.  Every call on the context or through the
    autograd function that returns keeps
    [len(analog_input) = len(analog_grad_output)] on every context.  On
    each context the traces are left as they were, or both grow by one
    element, which only a backward in deferred mode on that context does,
    or both become empty, which only the calls whose body runs [reset] on
    that context do. *)
Theorem traces_stay_aligned o st :
  traces_aligned st ->
  eval (run_op o) st = Ok tt ->
  traces_aligned (exec (run_op o) st) /\
  trace_effect o st (exec (run_op o) st).
Proof.
  intros Ha _. split; [|apply run_op_effect].
  eapply aligned_of_effect; [exact Ha | apply run_op_effect].
Qed.

End Effect.

(** ** The test double at work *)

Section Witnesses.
Import Demo.

Example host_store_context :
  objs host_store !! 4 = Some (OContext host_context).
Proof. vm_compute. reflexivity. Qed.

Example host_store_tile :
  tiles host_store !! 7 = Some (set_analog_ctx (Some 4) host_tile).
Proof. vm_compute. reflexivity. Qed.

Lemma trace_length_after_pairs_witness :
  exists x',
    objs (exec (run_pairs 4 7 batch3) host_store) !! 4 = Some (OContext x') /\
    length (analog_input x') = 3 /\
    length (analog_grad_output x') = 3 /\
    eval (has_gradient 4) (exec (run_pairs 4 7 batch3) host_store) = Ok true.
Proof.
  assert (E0 : objs host_store !! 4 = Some (OContext host_context))
    by (vm_compute; reflexivity).
  assert (Et : tiles host_store !! 7
               = Some (set_analog_ctx (Some 4) host_tile))
    by (vm_compute; reflexivity).
  destruct (trace_length_after_pairs host_store 4 7 host_context
              (set_analog_ctx (Some 4) host_tile) batch3
              E0 Et eq_refl eq_refl)
    as (_ & x' & E & Li & Lg & Hg).
  exists x'. split; [exact E|]. split; [exact Li|]. split; [exact Lg|].
  apply Hg. cbn. lia.
Defined.

(** C2 as stated fails: [cuda] on a context with a non-empty trace bound
    to a host tile empties the trace, although it is not a call of
    [reset]. *)
Lemma device_move_clears_traces :
  (exists x,
     objs trained_store !! 4 = Some (OContext x) /\
     analog_input x = [x0] /\ analog_grad_output x = [g0]) /\
  (exists x',
     objs (exec (run_op (OpCuda 4 None)) trained_store) !! 4
     = Some (OContext x') /\
     analog_input x' = [] /\ analog_grad_output x' = []).
Proof.
  split; eexists; (split; [vm_compute; reflexivity|]); split; reflexivity.
Qed.

Lemma traces_stay_aligned_witness :
  traces_aligned (exec (run_op (OpCuda 4 None)) trained_store) /\
  trace_effect (OpCuda 4 None) trained_store
    (exec (run_op (OpCuda 4 None)) trained_store).
Proof.
  apply (traces_stay_aligned (OpCuda 4 None) trained_store).
  - apply (bool_decide_unpack _). vm_compute. exact I.
  - vm_compute. reflexivity.
Defined.

Example cuda_store_context :
  objs cuda_store !! 4 = Some (OContext cuda_context).
Proof. vm_compute. reflexivity. Qed.

Example cuda_store_tile :
  tiles cuda_store !! 8 = Some (set_analog_ctx (Some 4) cuda_tile).
Proof. vm_compute. reflexivity. Qed.

Lemma direct_pair_gradient_witness :
  exists cs gi gw,
    eval (r <- forward 4 7 x0 (Some shared) false ;; backward (fst r) g0)
      host_store
    = Ok (cs, mkGrads None None (Some gi) (Some gw) None) /\
    t_shape gw = t_shape shared.
Proof.
  assert (E0 : objs host_store !! 4 = Some (OContext host_context))
    by (vm_compute; reflexivity).
  assert (Et : tiles host_store !! 7
               = Some (set_analog_ctx (Some 4) host_tile))
    by (vm_compute; reflexivity).
  destruct (direct_pair_gradient host_store 4 7 host_context
              (set_analog_ctx (Some 4) host_tile) x0 shared g0 false
              E0 Et eq_refl eq_refl)
    as (cs & gi & gw & _ & _ & _ & Hev & Hs & _).
  exists cs, gi, gw. split; [exact Hev | exact Hs].
Defined.

(** C4 as stated fails: after a forward without shared weights and a
    later forward with shared weights on the same context, the backward
    of the first call runs the backward routine of the tile and then
    raises TypeError, so that no input-side gradient is returned. *)
Lemma backward_after_direct_forward_raises :
  eval (r1 <- forward 4 7 x0 None false ;;
        r2 <- forward 4 7 g0 (Some shared) false ;;
        backward (fst r1) g0) host_store
  = Raise TypeError /\
  exists ti',
    tiles (exec (r1 <- forward 4 7 x0 None false ;;
                 r2 <- forward 4 7 g0 (Some shared) false ;;
                 backward (fst r1) g0) host_store) !! 7 = Some ti' /\
    filter (fun k => is_backward_call k) (calls ti') = [CBackward g0].
Proof.
  split; [vm_compute; reflexivity|].
  eexists. split; [vm_compute; reflexivity | reflexivity].
Qed.

Lemma backward_returns_input_gradient_witness :
  exists cs' gi gw,
    eval (backward (mkCall 4 7 (Some shared) [] [x0]) g0) direct_store
    = Ok (cs', mkGrads None None (Some gi) (Some gw) None).
Proof.
  assert (E0 : objs direct_store !! 4
               = Some (OContext
                         (mkContext weights true (Some 7) true false [] [])))
    by (vm_compute; reflexivity).
  assert (Et : exists ti, tiles direct_store !! 7 = Some ti)
    by (eexists; vm_compute; reflexivity).
  destruct Et as [ti Et].
  pose proof (proj2 (backward_returns_input_gradient direct_store
                       (mkCall 4 7 (Some shared) [] [x0]) g0 _ ti x0 []
                       E0 Et eq_refl)) as Hr.
  cbn [use_torch_update cs_shared_weights has_shared negb andb] in Hr.
  destruct Hr as (cs' & gw & Hev & Hg).
  destruct gw as [gw|].
  - eexists cs', _, gw. exact Hev.
  - discriminate (proj1 Hg eq_refl).
Defined.

(** C5 as stated fails: on an accelerator tile that offloads inputs, the
    tensor appended to [analog_input] in deferred mode is on the host,
    not on the device of the tile. *)
Lemma offloaded_input_stays_on_host :
  (exists ti,
     tiles cuda_store !! 8 = Some ti /\
     offload_input (runtime ti) = true /\ device ti = Cuda 0) /\
  (exists x',
     objs (exec (r <- forward 4 8 x0 None false ;; backward (fst r) g0)
             cuda_store) !! 4 = Some (OContext x') /\
     analog_input x' = [tensor_cpu x0] /\
     t_device (tensor_cpu x0) <> Cuda 0).
Proof.
  split.
  - eexists. split; [vm_compute; reflexivity|]. split; reflexivity.
  - eexists. split; [vm_compute; reflexivity|].
    split; [reflexivity | discriminate].
Qed.

Lemma offloaded_input_in_backward_witness :
  exists x',
    objs (exec (r <- forward 4 8 x0 None false ;; backward (fst r) g0)
            cuda_store) !! 4 = Some (OContext x') /\
    analog_input x' = [tensor_cpu x0].
Proof.
  assert (E0 : objs cuda_store !! 4 = Some (OContext cuda_context))
    by (vm_compute; reflexivity).
  assert (Et : tiles cuda_store !! 8
               = Some (set_analog_ctx (Some 4) cuda_tile))
    by (vm_compute; reflexivity).
  destruct (offloaded_input_in_backward cuda_store 4 8 cuda_context
              (set_analog_ctx (Some 4) cuda_tile) x0 None g0 false
              E0 Et eq_refl)
    as (x' & ti' & E & _ & Hi & _).
  exists x'. split; [exact E | exact Hi].
Defined.

Lemma reset_clears_and_rebinds_witness :
  objs (exec (reset 4 (Some 8)) trained_store) !! 4
  = Some (OContext (mkContext weights true (Some 8) false false [] [])) /\
  exists ti',
    tiles (exec (reset 4 (Some 8)) trained_store) !! 8 = Some ti' /\
    analog_ctx ti' = Some 4.
Proof.
  assert (E0 : objs trained_store !! 4
               = Some (OContext
                         (mkContext weights true (Some 7) false false
                            [x0] [g0])))
    by (vm_compute; reflexivity).
  assert (Et : tiles trained_store !! 8 = Some cuda_tile)
    by (vm_compute; reflexivity).
  destruct (reset_clears_and_rebinds trained_store 4 _ E0) as [_ Hr].
  destruct (Hr 8 cuda_tile Et) as (_ & Ho & Ht).
  split; [exact Ho | exact Ht].
Defined.

Lemma copy_is_plain_snapshot_witness :
  exists r,
    eval (copy_ 4) trained_store = Ok r /\
    objs (exec (copy_ 4) trained_store) !! r
    = Some (OParameter (mkParameter weights true)).
Proof.
  assert (E0 : objs trained_store !! 4
               = Some (OContext
                         (mkContext weights true (Some 7) false false
                            [x0] [g0])))
    by (vm_compute; reflexivity).
  destruct (copy_is_plain_snapshot trained_store 4 _ (copy_ 4) E0
              (or_introl eq_refl))
    as (r & Hev & _ & Ho & _).
  exists r. split; [exact Hev | exact Ho].
Defined.

Lemma host_move_is_noop_witness :
  binding_kept (cpu 4) trained_store 4
    (mkContext weights true (Some 7) false false [x0] [g0]).
Proof.
  assert (E0 : objs trained_store !! 4
               = Some (OContext
                         (mkContext weights true (Some 7) false false
                            [x0] [g0])))
    by (vm_compute; reflexivity).
  assert (Et : exists ti, tiles trained_store !! 7 = Some ti /\
                          is_cuda ti = false)
    by (eexists; split; [vm_compute; reflexivity | reflexivity]).
  destruct Et as (ti & Et & Ec).
  exact (proj1 (host_move_is_noop trained_store 4 _ 7 ti E0 eq_refl Et Ec)).
Defined.

(** C9 as stated fails: the constructor applied to an existing parameter
    that is not gradient-tracked returns a context that is not
    gradient-tracked. *)
Lemma reattached_parameter_keeps_flag :
  objs store0 !! 3 = Some (OParameter (mkParameter weights false)) /\
  eval (construct 7 (Some 3)) store0 = Ok 3 /\
  exists x',
    objs (exec (construct 7 (Some 3)) store0) !! 3 = Some (OContext x') /\
    requires_grad x' = false.
Proof.
  split; [vm_compute; reflexivity|].
  split; [vm_compute; reflexivity|].
  eexists. split; [vm_compute; reflexivity | reflexivity].
Qed.

Lemma construct_binds_tile_witness :
  exists self x' ti',
    eval (construct 7 (Some 3)) store0 = Ok self /\
    objs (exec (construct 7 (Some 3)) store0) !! self = Some (OContext x') /\
    tiles (exec (construct 7 (Some 3)) store0) !! 7 = Some ti' /\
    analog_tile x' = Some 7 /\
    analog_ctx ti' = Some self.
Proof.
  assert (Et : tiles store0 !! 7 = Some host_tile)
    by (vm_compute; reflexivity).
  assert (Hp : is_Some (objs store0 !! 3))
    by (exists (OParameter frozen); vm_compute; reflexivity).
  destruct (construct_binds_tile store0 7 host_tile (Some 3) Et Hp)
    as (self & x' & ti' & Hev & Ho & Ht & Ha & Hb & _).
  exists self, x', ti'. repeat (split; [assumption|]). assumption.
Defined.

Lemma backward_follows_current_flags_witness :
  exists x' ti',
    objs (exec (r1 <- forward 4 7 x0 (Some shared) false ;;
                set_indexed 4 true ;;
                r2 <- forward 4 7 g0 None false ;;
                backward (fst r1) g0) host_store) !! 4
    = Some (OContext x') /\
    tiles (exec (r1 <- forward 4 7 x0 (Some shared) false ;;
                 set_indexed 4 true ;;
                 r2 <- forward 4 7 g0 None false ;;
                 backward (fst r1) g0) host_store) !! 7
    = Some ti' /\
    analog_input x' = [x0] /\
    filter (fun k => is_backward_call k) (calls ti') = [CBackwardIndexed g0].
Proof.
  assert (E0 : objs host_store !! 4 = Some (OContext host_context))
    by (vm_compute; reflexivity).
  assert (Et : tiles host_store !! 7
               = Some (set_analog_ctx (Some 4) host_tile))
    by (vm_compute; reflexivity).
  destruct (backward_follows_current_flags host_store 4 7 host_context
              (set_analog_ctx (Some 4) host_tile)
              x0 (Some shared) false true g0 None false g0 E0 Et)
    as (x' & ti' & E & Eti & Hb & _ & Hi & _).
  exists x', ti'. split; [exact E|]. split; [exact Eti|].
  split; [exact Hi | exact Hb].
Defined.

End Witnesses.

(** ** Device moves that migrate the tile *)

Section Moves.
Context `{TileBackend}.

Lemma cuda_host_run st self x t ti dev :
  objs st !! self = Some (OContext x) ->
  analog_tile x = Some t ->
  tiles st !! t = Some ti ->
  is_cuda ti = false ->
  cuda self dev st
  = (Ok self,
     mkStore
       (<[self := OContext
                    (mkContext (tile_weights ti) (requires_grad x) (Some t)
                       (use_torch_update x) (use_indexed x) [] [])]>
          (objs st))
       (<[t := set_analog_ctx (Some self) (migrated_cuda dev ti)]>
          (tiles st))).
Proof.
  intros E Ea Et Ec. unfold cuda, bound_tile. py_run. rewrite Ea.
  py_run. py_unfold_tile. unfold reset, bound_tile. py_run. reflexivity.
Qed.

Lemma cuda_accel_run st self x t ti dev :
  objs st !! self = Some (OContext x) ->
  analog_tile x = Some t ->
  tiles st !! t = Some ti ->
  is_cuda ti = true ->
  cuda self dev st = (Ok self, st).
Proof.
  intros E Ea Et Ec. unfold cuda, bound_tile. py_run. rewrite Ea.
  py_run. reflexivity.
Qed.

Lemma cpu_accel_run st self x t ti :
  objs st !! self = Some (OContext x) ->
  analog_tile x = Some t ->
  tiles st !! t = Some ti ->
  is_cuda ti = true ->
  cpu self st
  = (Ok self,
     mkStore
       (<[self := OContext
                    (mkContext (tensor_cpu (data x)) (requires_grad x)
                       (Some t) (use_torch_update x) (use_indexed x) [] [])]>
          (objs st))
       (<[t := set_analog_ctx (Some self) (migrated_cpu ti)]> (tiles st))).
Proof.
  intros E Ea Et Ec. unfold cpu. py_run. rewrite Ea.
  py_run. py_unfold_tile. unfold reset, bound_tile. py_run. reflexivity.
Qed.

(** X1. [cuda] on a context whose tile is on the host: the data become
    the weights the tile held before it moved, the tile is migrated to the
    requested accelerator, both traces are emptied, the flags are kept,
    and context and tile refer to each other. *)
Theorem cuda_migrates_and_rebinds st self x t ti dev :
  objs st !! self = Some (OContext x) ->
  analog_tile x = Some t ->
  tiles st !! t = Some ti ->
  is_cuda ti = false ->
  eval (cuda self dev) st = Ok self /\
  bound (exec (cuda self dev) st) self t /\
  exists x' ti',
    objs (exec (cuda self dev) st) !! self = Some (OContext x') /\
    tiles (exec (cuda self dev) st) !! t = Some ti' /\
    data x' = tile_weights ti /\
    no_traces x' /\
    use_indexed x' = use_indexed x /\
    use_torch_update x' = use_torch_update x /\
    requires_grad x' = requires_grad x /\
    device ti' = Cuda (cuda_index dev) /\
    calls ti' = calls ti ++ [CCuda dev].
Proof.
  intros E Ea Et Ec. unfold eval, exec.
  rewrite (cuda_host_run _ _ _ _ _ dev E Ea Et Ec). cbn [fst snd objs tiles].
  split; [reflexivity|]. split.
  - eexists _, _. split; [apply lookup_insert_eq|]. split; [reflexivity|].
    split; [apply lookup_insert_eq | reflexivity].
  - eexists _, _. split; [apply lookup_insert_eq|].
    split; [apply lookup_insert_eq|]. repeat split.
Qed.

(** X2. [cuda] on a context whose tile is already on an accelerator
    changes nothing at all, whichever device is asked for: data, traces
    and tile stay as they are; hence a second [cuda] after a migrating one
    is without effect. *)
Theorem cuda_on_accelerator_is_noop st self x t ti dev :
  objs st !! self = Some (OContext x) ->
  analog_tile x = Some t ->
  tiles st !! t = Some ti ->
  (is_cuda ti = true -> cuda self dev st = (Ok self, st)) /\
  (forall dev', exec (cuda self dev') (exec (cuda self dev) st)
                = exec (cuda self dev) st).
Proof.
  intros E Ea Et. split.
  - intros Ec. exact (cuda_accel_run _ _ _ _ _ dev E Ea Et Ec).
  - intros dev'. destruct (is_cuda ti) eqn:Ec.
    + unfold exec. rewrite (cuda_accel_run _ _ _ _ _ dev E Ea Et Ec).
      cbn [snd]. now rewrite (cuda_accel_run _ _ _ _ _ dev' E Ea Et Ec).
    + unfold exec. rewrite (cuda_host_run _ _ _ _ _ dev E Ea Et Ec).
      cbn [snd].
      erewrite cuda_accel_run;
        [ reflexivity | cbn [objs]; apply lookup_insert_eq | reflexivity
        | cbn [tiles]; apply lookup_insert_eq | reflexivity ].
Qed.

(** X3. [cpu] on a context whose tile is on an accelerator: the data are
    moved to the host, the tile is migrated to the host, both traces are
    emptied, the flags are kept, and context and tile refer to each
    other. *)
Theorem cpu_migrates_and_rebinds st self x t ti :
  objs st !! self = Some (OContext x) ->
  analog_tile x = Some t ->
  tiles st !! t = Some ti ->
  is_cuda ti = true ->
  eval (cpu self) st = Ok self /\
  bound (exec (cpu self) st) self t /\
  exists x' ti',
    objs (exec (cpu self) st) !! self = Some (OContext x') /\
    tiles (exec (cpu self) st) !! t = Some ti' /\
    data x' = tensor_cpu (data x) /\
    no_traces x' /\
    use_indexed x' = use_indexed x /\
    use_torch_update x' = use_torch_update x /\
    requires_grad x' = requires_grad x /\
    device ti' = Cpu /\
    calls ti' = calls ti ++ [CCpu].
Proof.
  intros E Ea Et Ec. unfold eval, exec.
  rewrite (cpu_accel_run _ _ _ _ _ E Ea Et Ec). cbn [fst snd objs tiles].
  split; [reflexivity|]. split.
  - eexists _, _. split; [apply lookup_insert_eq|]. split; [reflexivity|].
    split; [apply lookup_insert_eq | reflexivity].
  - eexists _, _. split; [apply lookup_insert_eq|].
    split; [apply lookup_insert_eq|]. repeat split.
Qed.

Lemma to_run_prefix st self x args kw :
  objs st !! self = Some (OContext x) ->
  forall (k : M unit),
    (d <- attr self data ;;
     update_context self (set_data_attr (tensor_to args kw d)) ;;
     k ;; ret self) st
    = (k ;; ret self)
        (mkStore
           (<[self := OContext (set_data_attr (tensor_to args kw (data x)) x)]>
              (objs st)) (tiles st)).
Proof.
  intros E k.
  rewrite (bind_ok _ _ _ _ _ (attr_ok _ _ _ _ E)).
  now rewrite (bind_ok _ _ _ _ _ (update_context_ok _ _ _ _ E)).
Qed.

(** X4. [to] with an accelerator device on a context whose tile is on the
    host ends in the same store as [cuda] with that device: the
    conversion of the data made first is overwritten by the weights read
    from the tile. *)
Theorem to_accelerator_is_cuda st self x t ti args kw i :
  objs st !! self = Some (OContext x) ->
  analog_tile x = Some t ->
  tiles st !! t = Some ti ->
  is_cuda ti = false ->
  to_device_arg args kw = Some (Cuda i) ->
  eval (to self args kw) st = Ok self /\
  exec (to self args kw) st = exec (cuda self (Some i)) st.
Proof.
  intros E Ea Et Ec Ed.
  assert (Hto : to self args kw st = cuda self (Some i) st).
  { unfold to. rewrite Ed. rewrite (to_run_prefix _ _ _ _ _ E).
    unfold bound_tile.
    set (st1 := mkStore _ _).
    assert (E1 : objs st1 !! self
                 = Some (OContext
                           (set_data_attr (tensor_to args kw (data x)) x)))
      by (subst st1; cbn [objs]; apply lookup_insert_eq).
    assert (Et1 : tiles st1 !! t = Some ti) by exact Et.
    unfold bind at 1. unfold bind at 1.
    rewrite (bind_ok _ _ _ _ _ (attr_ok _ _ _ analog_tile E1)).
    cbn [analog_tile set_data_attr]. rewrite Ea.
    unfold ret at 1.
    rewrite (bind_ok _ _ _ _ _ (load_tile_ok _ _ _ Et1)). rewrite Ec.
    cbn [negb].
    rewrite (bind_ok _ _ _ _ _
               (cuda_host_run st1 self _ t ti (Some i) E1 Ea Et1 Ec)).
    unfold ret. rewrite (cuda_host_run st self x t ti (Some i) E Ea Et Ec).
    subst st1. cbn [objs tiles set_data_attr requires_grad use_torch_update
                    use_indexed].
    now rewrite insert_insert_eq. }
  unfold eval, exec. rewrite Hto.
  rewrite (cuda_host_run st self x t ti (Some i) E Ea Et Ec).
  split; reflexivity.
Qed.

(** X5. [to] without a device among its arguments (a dtype or a tensor
    only) converts the data and nothing else, also on a context that
    refers to no tile. *)
Theorem to_without_device_converts_data st self x args kw :
  objs st !! self = Some (OContext x) ->
  to_device_arg args kw = None ->
  eval (to self args kw) st = Ok self /\
  tiles (exec (to self args kw) st) = tiles st /\
  exists x',
    objs (exec (to self args kw) st) !! self = Some (OContext x') /\
    data x' = tensor_to args kw (data x) /\
    same_but_data x x'.
Proof.
  intros E Ed. unfold eval, exec, to. rewrite Ed.
  rewrite (to_run_prefix _ _ _ _ _ E). unfold bind, ret.
  cbn [fst snd objs tiles].
  split; [reflexivity|]. split; [reflexivity|].
  eexists. split; [apply lookup_insert_eq|]. repeat split.
Qed.


End Moves.

(** ** More on forward and backward *)

Section Dispatch.
Context `{TileBackend}.

(** X7. [forward] calls the forward routine selected by [use_indexed],
    once, and returns its output; it sets [use_torch_update] to whether
    shared weights were given and leaves data, traces, [use_indexed] and
    tile reference of the context alone.  The call object holds the shared
    weights and, first among the saved tensors, the input, moved to the
    host exactly when the input-offload flag is set; what the routine
    saved itself follows unchanged. *)
Theorem forward_routes_and_saves st c t x ti inp sw it :
  objs st !! c = Some (OContext x) ->
  tiles st !! t = Some ti ->
  exists cs x' ti',
    eval (forward c t inp sw it) st
    = Ok (cs, forward_out (use_indexed x) (shared_bound sw ti) inp it) /\
    cs_shared_weights cs = sw /\
    cs_saved_analog_tensors cs = [] /\
    cs_saved_tensors cs
    = (if offload_input (runtime ti) then tensor_cpu inp else inp)
        :: forward_extra (use_indexed x) (shared_bound sw ti) inp it /\
    objs (exec (forward c t inp sw it) st) !! c = Some (OContext x') /\
    use_torch_update x' = has_shared sw /\
    data x' = data x /\ requires_grad x' = requires_grad x /\
    analog_tile x' = analog_tile x /\ use_indexed x' = use_indexed x /\
    same_traces x x' /\
    tiles (exec (forward c t inp sw it) st) !! t = Some ti' /\
    filter (fun k => is_forward_call k) (calls ti')
    = filter (fun k => is_forward_call k) (calls ti)
      ++ [forward_call (use_indexed x) inp it] /\
    tile_delta ti' = tile_delta ti /\ tile_weights ti' = tile_weights ti /\
    device ti' = device ti /\ analog_ctx ti' = analog_ctx ti.
Proof.
  intros E Et. unfold eval, exec. rewrite (forward_run _ _ _ _ _ _ _ _ E Et).
  cbn [fst snd objs tiles].
  eexists _, _, _. split; [reflexivity|].
  split; [reflexivity|]. split; [reflexivity|]. split; [reflexivity|].
  split; [apply lookup_insert_eq|].
  do 5 (split; [reflexivity|]). split; [split; reflexivity|].
  split; [apply lookup_insert_eq|].
  split.
  - unfold shared_bound, forward_call.
    destruct sw, (use_indexed x); py_calls.
  - destruct sw; repeat split.
Qed.

(** X8. [N] forward/backward pairs without shared weights append to the
    traces, in the order of the calls, the inputs as forward saved them
    and the output gradients, moved to the host exactly when the
    gradient-offload flag is set; what the traces held before stays in
    front. *)
Theorem trace_contents_after_pairs st c t x ti batch :
  objs st !! c = Some (OContext x) ->
  tiles st !! t = Some ti ->
  eval (run_pairs c t batch) st = Ok tt /\
  exists x',
    objs (exec (run_pairs c t batch) st) !! c = Some (OContext x') /\
    analog_input x'
    = analog_input x
      ++ map (fun b => if offload_input (runtime ti)
                       then tensor_cpu (fst (fst b)) else fst (fst b)) batch /\
    analog_grad_output x'
    = analog_grad_output x
      ++ map (fun b => if offload_gradient (runtime ti)
                       then tensor_cpu (snd (fst b)) else snd (fst b)) batch.
Proof.
  intros E Et.
  destruct (run_pairs_traces c t batch st x ti E Et)
    as (Hev & x' & ti' & Ex' & _ & _ & Hi & Hg).
  split; [exact Hev|]. exists x'. split; [exact Ex'|].
  split; [exact Hi | exact Hg].
Qed.

(** X9. [backward] on a context in direct mode with a call object that
    holds no shared weights raises TypeError.  By then the backward
    routine of the tile has run; no delta-weight target was bound, no
    update routine ran, and no context changed. *)
Theorem backward_direct_without_shared st cs g x ti inp rest :
  objs st !! cs_analog_ctx cs = Some (OContext x) ->
  tiles st !! cs_analog_tile cs = Some ti ->
  cs_saved_tensors cs = inp :: rest ->
  use_torch_update x = true ->
  cs_shared_weights cs = None ->
  eval (backward cs g) st = Raise TypeError /\
  objs (exec (backward cs g) st) = objs st /\
  exists ti',
    tiles (exec (backward cs g) st) !! cs_analog_tile cs = Some ti' /\
    calls ti' = calls ti ++ [backward_call (use_indexed x) g] /\
    tile_delta ti' = tile_delta ti /\
    tile_shared ti' = tile_shared ti.
Proof.
  intros E Et Es Eu Ew. unfold eval, exec.
  rewrite (backward_direct_raise _ _ _ _ _ _ _ E Et Es Eu Ew).
  cbn [fst snd objs tiles]. split; [reflexivity|]. split; [reflexivity|].
  eexists. split; [apply lookup_insert_eq|]. repeat split.
Qed.

(** X10. [has_gradient] follows the traces: it is false after [reset],
    true after a forward/backward pair without shared weights, and after
    a pair with shared weights it is what it was before. *)
Theorem has_gradient_lifecycle st c t x ti inp g it :
  objs st !! c = Some (OContext x) ->
  tiles st !! t = Some ti ->
  (forall arg,
     arg = None \/ arg = Some t ->
     eval (reset c arg ;; has_gradient c) st = Ok false) /\
  eval (r <- forward c t inp None it ;; backward (fst r) g ;;
        has_gradient c) st = Ok true /\
  (forall w,
     eval (r <- forward c t inp (Some w) it ;; backward (fst r) g ;;
           has_gradient c) st
     = eval (has_gradient c) st).
Proof.
  intros E Et. split; [|split].
  - intros arg [-> | ->]; unfold eval.
    + rewrite (bind_ok _ _ _ _ _ (reset_none_run _ _ _ E)).
      unfold has_gradient.
      erewrite bind_ok
        by (eapply attr_ok; cbn [objs]; apply lookup_insert_eq).
      reflexivity.
    + rewrite (bind_ok _ _ _ _ _ (reset_some_run _ _ _ _ _ E Et)).
      unfold has_gradient.
      erewrite bind_ok
        by (eapply attr_ok; cbn [objs]; apply lookup_insert_eq).
      reflexivity.
  - pose proof (pair_deferred_run st c t x ti inp g it E Et) as Hp.
    unfold eval. unfold bind in Hp |- *.
    destruct (forward c t inp None it st) as [[[cs out]|e] s0];
      [|discriminate].
    cbn [fst] in Hp |- *.
    destruct (backward cs g s0) as [[a|e] s1]; [|discriminate].
    injection Hp as _ ->. unfold has_gradient, attr, bind, load_context.
    cbn [objs]. rewrite lookup_insert_eq. cbn.
    rewrite length_app. cbn.
    now replace (length (analog_input x) + 1) with (S (length (analog_input x)))
      by lia.
  - intros w.
    pose proof (pair_direct_run st c t x ti inp w g it E Et) as Hp.
    cbv zeta in Hp.
    unfold eval. unfold bind in Hp |- *.
    destruct (forward c t inp (Some w) it st) as [[[cs out]|e] s0];
      [|discriminate].
    cbn [fst] in Hp |- *.
    destruct (backward cs g s0) as [[a|e] s1]; [|discriminate].
    injection Hp as _ ->. unfold has_gradient, attr, bind, load_context.
    cbn [objs]. rewrite lookup_insert_eq. rewrite E. reflexivity.
Qed.

(** X11. Two forwards without shared weights followed by their backwards
    in reverse order, as autograd runs them: the traces grow in the order
    of the backward calls, and each saved input stands at the position of
    the gradient of its own call. *)
Theorem nested_pairs_stay_matched st c t x ti in1 it1 in2 it2 g1 g2 :
  objs st !! c = Some (OContext x) ->
  tiles st !! t = Some ti ->
  let m := (r1 <- forward c t in1 None it1 ;;
            r2 <- forward c t in2 None it2 ;;
            backward (fst r2) g2 ;;
            backward (fst r1) g1) in
  (exists cs gr, eval m st = Ok (cs, gr)) /\
  exists x',
    objs (exec m st) !! c = Some (OContext x') /\
    analog_input x'
    = analog_input x
      ++ [saved_input (runtime ti) in2; saved_input (runtime ti) in1] /\
    analog_grad_output x'
    = analog_grad_output x
      ++ [stored_gradient (runtime ti) g2; stored_gradient (runtime ti) g1].
Proof.
  intros E Et m. subst m. unfold eval, exec.
  rewrite (bind_ok _ _ _ _ _ (forward_run _ _ _ _ _ _ _ _ E Et)).
  erewrite bind_ok
    by (eapply forward_run; cbn [objs tiles]; apply lookup_insert_eq).
  cbn [fst snd].
  erewrite bind_ok
    by (eapply backward_deferred_run;
        [ cbn [objs cs_analog_ctx]; apply lookup_insert_eq
        | cbn [tiles cs_analog_tile]; apply lookup_insert_eq
        | reflexivity | reflexivity ]).
  erewrite backward_deferred_run;
    [ | cbn [objs cs_analog_ctx]; apply lookup_insert_eq
      | cbn [tiles cs_analog_tile]; apply lookup_insert_eq
      | reflexivity | reflexivity ].
  cbn [fst snd objs tiles cs_analog_ctx cs_analog_tile].
  split; [eexists _, _; reflexivity|].
  eexists. split; [apply lookup_insert_eq|].
  cbn [analog_input analog_grad_output set_use_torch_update runtime
       log_call shared_bound cs_shared_weights].
  rewrite <- !app_assoc. split; reflexivity.
Qed.

End Dispatch.

(** ** Bindings over several calls *)

Section Bindings.
Context `{TileBackend}.

(** X12. Constructing a second context on a tile takes the tile over: the
    tile then refers to the new context, which refers to it; the first
    context is unchanged and still names the tile, but the tile no longer
    refers back to it. *)
Theorem construct_takes_over_tile st c t x ti parameter :
  objs st !! c = Some (OContext x) ->
  analog_tile x = Some t ->
  tiles st !! t = Some ti ->
  match parameter with
  | Some p => p <> c /\ is_Some (objs st !! p)
  | None => True
  end ->
  exists self,
    eval (construct t parameter) st = Ok self /\
    self <> c /\
    bound (exec (construct t parameter) st) self t /\
    objs (exec (construct t parameter) st) !! c = Some (OContext x) /\
    ~ bound (exec (construct t parameter) st) c t.
Proof.
  intros E Ea Et Hp.
  assert (Hnb : forall self st',
            self <> c ->
            tiles st' !! t = Some (set_analog_ctx (Some self) ti) ->
            ~ bound st' c t).
  { intros self st' Hne Et' (x0 & ti0 & _ & _ & Et0 & Hc0).
    rewrite Et' in Et0. injection Et0 as <-. cbn in Hc0. congruence. }
  destruct parameter as [p|].
  - destruct Hp as [Hne [o Ep]]. exists p.
    unfold eval, exec. rewrite (construct_attach_run _ _ _ _ _ Et Ep).
    cbn [fst snd]. split; [reflexivity|]. split; [exact Hne|]. split.
    + eexists _, _. cbn [objs tiles].
      split; [apply lookup_insert_eq|].
      split; [destruct o; reflexivity|].
      split; [apply lookup_insert_eq | reflexivity].
    + split.
      * cbn [objs]. now rewrite lookup_insert_ne by exact Hne.
      * apply (Hnb p); [exact Hne|]. cbn [tiles]. apply lookup_insert_eq.
  - exists (fresh (dom (objs st))).
    assert (Hne : fresh (dom (objs st)) <> c).
    { intros Heq. pose proof (fresh_obj_unused st) as Hf.
      rewrite Heq in Hf. congruence. }
    unfold eval, exec. rewrite (construct_fresh_run _ _ _ Et).
    cbn [fst snd]. split; [reflexivity|]. split; [exact Hne|]. split.
    + eexists _, _. cbn [objs tiles].
      split; [apply lookup_insert_eq|]. split; [reflexivity|].
      split; [apply lookup_insert_eq | reflexivity].
    + split.
      * cbn [objs]. now rewrite lookup_insert_ne by exact Hne.
      * apply (Hnb (fresh (dom (objs st)))); [exact Hne|].
        cbn [tiles]. apply lookup_insert_eq.
Qed.

(** X13. Copying a context and constructing a context from the copy on a
    tile gives a new context with the data of the original, bound to that
    tile, with empty traces and cleared flags; it is gradient-tracked
    whether or not the original was, and the original is unchanged. *)
Theorem copy_then_reattach st c x t ti :
  objs st !! c = Some (OContext x) ->
  tiles st !! t = Some ti ->
  let m := (r <- copy_ c ;; construct t (Some r)) in
  exists r,
    eval m st = Ok r /\
    r <> c /\
    objs (exec m st) !! r
    = Some (OContext (mkContext (data x) true (Some t) false false [] [])) /\
    objs (exec m st) !! c = Some (OContext x) /\
    bound (exec m st) r t.
Proof.
  intros E Et m. subst m.
  set (r := fresh (dom (objs st))).
  assert (Hne : r <> c).
  { intros Heq. pose proof (fresh_obj_unused st) as Hf. fold r in Hf.
    rewrite Heq in Hf. congruence. }
  assert (Hc : copy_ c st
               = (Ok r, mkStore (<[r := OParameter (mkParameter (data x) true)]>
                                   (objs st)) (tiles st))).
  { unfold copy_. rewrite (bind_ok _ _ _ _ _ (attr_ok _ _ _ _ E)).
    apply alloc_obj_run. }
  exists r. unfold eval, exec. rewrite (bind_ok _ _ _ _ _ Hc).
  erewrite construct_attach_run;
    [ | exact Et | cbn [objs]; apply lookup_insert_eq ].
  cbn [fst snd objs tiles p_data p_requires_grad].
  rewrite insert_insert_eq.
  split; [reflexivity|]. split; [exact Hne|].
  split; [apply lookup_insert_eq|]. split.
  - now rewrite lookup_insert_ne by exact Hne.
  - eexists _, _. cbn [objs tiles]. split; [apply lookup_insert_eq|].
    split; [reflexivity|]. split; [apply lookup_insert_eq | reflexivity].
Qed.

(** X14. [reset] is idempotent, with or without a tile argument, and
    without one it touches no tile and keeps the tile reference. *)
Theorem reset_is_idempotent st c x t ti :
  objs st !! c = Some (OContext x) ->
  tiles st !! t = Some ti ->
  exec (reset c None) (exec (reset c None) st) = exec (reset c None) st /\
  exec (reset c (Some t)) (exec (reset c (Some t)) st)
  = exec (reset c (Some t)) st /\
  tiles (exec (reset c None) st) = tiles st /\
  exists x',
    objs (exec (reset c None) st) !! c = Some (OContext x') /\
    analog_tile x' = analog_tile x.
Proof.
  intros E Et. unfold exec.
  rewrite (reset_none_run _ _ _ E), (reset_some_run _ _ _ _ _ E Et).
  cbn [snd]. split; [|split; [|split]].
  - erewrite reset_none_run by (cbn [objs]; apply lookup_insert_eq).
    cbn [snd objs tiles]. now rewrite insert_insert_eq.
  - erewrite reset_some_run
      by (cbn [objs tiles]; apply lookup_insert_eq).
    cbn [snd objs tiles]. now rewrite !insert_insert_eq.
  - reflexivity.
  - eexists. cbn [objs]. split; [apply lookup_insert_eq | reflexivity].
Qed.

(** X15. After [set_indexed v], a forward and its backward both go
    through the routines selected by [v], each called once, whatever the
    flag was before. *)
Theorem set_indexed_routes_both st c t x ti v inp g it :
  objs st !! c = Some (OContext x) ->
  tiles st !! t = Some ti ->
  let m := (set_indexed c v ;;
            r <- forward c t inp None it ;; backward (fst r) g) in
  exists cs gi ti',
    eval m st = Ok (cs, mkGrads None None (Some gi) None None) /\
    tiles (exec m st) !! t = Some ti' /\
    calls ti' = calls ti ++ [forward_call v inp it; backward_call v g].
Proof.
  intros E Et m. subst m. unfold eval, exec, set_indexed.
  rewrite (bind_ok _ _ _ _ _ (update_context_ok _ _ _ _ E)).
  erewrite pair_deferred_run;
    [ | cbn [objs]; apply lookup_insert_eq | exact Et ].
  cbn [fst snd objs tiles use_indexed set_use_indexed].
  eexists _, _, _. split; [reflexivity|].
  split; [apply lookup_insert_eq|].
  cbn [calls log_call]. now rewrite <- app_assoc.
Qed.

(** X16. [cuda] followed by [cpu] on a context whose tile is on the host
    brings the tile back to the host, with both migrations in its log and
    its weights on the host; the context holds those weights, has empty
    traces and is bound to the tile. *)
Theorem cuda_then_cpu_round_trip st c x t ti dev :
  objs st !! c = Some (OContext x) ->
  analog_tile x = Some t ->
  tiles st !! t = Some ti ->
  is_cuda ti = false ->
  let m := (cuda c dev ;; cpu c) in
  eval m st = Ok c /\
  bound (exec m st) c t /\
  exists x' ti',
    objs (exec m st) !! c = Some (OContext x') /\
    tiles (exec m st) !! t = Some ti' /\
    data x' = tensor_cpu (tile_weights ti) /\
    no_traces x' /\
    device ti' = Cpu /\
    tile_weights ti' = tensor_cpu (tile_weights ti) /\
    calls ti' = calls ti ++ [CCuda dev; CCpu].
Proof.
  intros E Ea Et Ec m. subst m. unfold eval, exec.
  rewrite (bind_ok _ _ _ _ _ (cuda_host_run _ _ _ _ _ dev E Ea Et Ec)).
  erewrite cpu_accel_run;
    [ | cbn [objs]; apply lookup_insert_eq | reflexivity
      | cbn [tiles]; apply lookup_insert_eq | reflexivity ].
  cbn [fst snd objs tiles]. rewrite !insert_insert_eq.
  split; [reflexivity|]. split.
  - eexists _, _. split; [apply lookup_insert_eq|]. split; [reflexivity|].
    split; [apply lookup_insert_eq | reflexivity].
  - eexists _, _. split; [apply lookup_insert_eq|].
    split; [apply lookup_insert_eq|].
    cbn [data]. split; [reflexivity|]. split; [split; reflexivity|].
    split; [reflexivity|]. split; [reflexivity|].
    unfold migrated_cpu, migrated_cuda.
    cbn [calls log_call set_tile_weights set_device set_analog_ctx].
    now rewrite <- app_assoc.
Qed.

End Bindings.

(** ** Calls that never rebind *)

Section BindingFrame.
Context `{TileBackend}.

Lemma binds_kept_refl st : binds_kept st st.
Proof. intros c t Hb. exact Hb. Qed.

Lemma binds_kept_trans st1 st2 st3 :
  binds_kept st1 st2 -> binds_kept st2 st3 -> binds_kept st1 st3.
Proof. intros H12 H23 c t Hb. apply H23, H12, Hb. Qed.

Lemma kept_bind {A B} (m : M A) (f : A -> M B) :
  preserves binds_kept m ->
  (forall a, preserves binds_kept (f a)) ->
  preserves binds_kept (bind m f).
Proof.
  intros Hm Hf st. rewrite exec_bind.
  destruct (eval m st) as [a|e]; [|apply Hm].
  eapply binds_kept_trans; [apply Hm | apply Hf].
Qed.

Lemma kept_ret {A} (a : A) : preserves binds_kept (ret a).
Proof. intros st. apply binds_kept_refl. Qed.

Lemma kept_raise {A} e : preserves binds_kept (@raise A e).
Proof. intros st. apply binds_kept_refl. Qed.

Lemma kept_load_context r : preserves binds_kept (load_context r).
Proof.
  intros st. unfold exec, load_context.
  destruct (objs st !! r) as [[?|?]|]; apply binds_kept_refl.
Qed.

Lemma kept_attr {A} r (field : AnalogContext -> A) :
  preserves binds_kept (attr r field).
Proof.
  apply kept_bind; [apply kept_load_context|]. intros x. apply kept_ret.
Qed.

Lemma kept_load_tile t : preserves binds_kept (load_tile t).
Proof.
  intros st. unfold exec, load_tile.
  destruct (tiles st !! t); apply binds_kept_refl.
Qed.

Lemma kept_update_tile t f :
  (forall ti, analog_ctx (f ti) = analog_ctx ti) ->
  preserves binds_kept (update_tile t f).
Proof.
  intros Hf st. unfold exec, update_tile.
  destruct (tiles st !! t) as [ti|] eqn:Et; [|apply binds_kept_refl].
  cbn [snd]. intros c t0 (x & ti0 & E & Ea & Et0 & Hc).
  destruct (decide (t0 = t)) as [->|Hne].
  - exists x, (f ti). cbn [objs tiles].
    split; [exact E|]. split; [exact Ea|].
    split; [apply lookup_insert_eq|]. rewrite Hf. congruence.
  - exists x, ti0. cbn [objs tiles].
    split; [exact E|]. split; [exact Ea|].
    split; [|exact Hc]. now rewrite lookup_insert_ne by congruence.
Qed.

Lemma kept_update_context r f :
  (forall x, analog_tile (f x) = analog_tile x) ->
  preserves binds_kept (update_context r f).
Proof.
  intros Hf st. unfold exec, update_context, bind, load_context, store_obj.
  destruct (objs st !! r) as [[q|x]|] eqn:E; cbn [snd];
    try apply binds_kept_refl.
  intros c t (x0 & ti & E0 & Ea & Et & Hc).
  destruct (decide (c = r)) as [->|Hne].
  - exists (f x), ti. cbn [objs tiles].
    split; [apply lookup_insert_eq|].
    split; [rewrite Hf; congruence|]. split; assumption.
  - exists x0, ti. cbn [objs tiles].
    split; [now rewrite lookup_insert_ne by congruence|].
    split; [exact Ea|]. split; assumption.
Qed.

Lemma kept_alloc_parameter p :
  preserves binds_kept (alloc_obj (OParameter p)).
Proof.
  intros st. unfold exec, alloc_obj. cbn [snd].
  pose proof (fresh_obj_unused st) as Hf.
  intros c t (x & ti & E & Ea & Et & Hc).
  exists x, ti. cbn [objs tiles].
  split; [|split; [exact Ea|split; assumption]].
  rewrite lookup_insert_ne; [exact E|]. intros Heq.
  rewrite Heq in Hf. congruence.
Qed.

End BindingFrame.

Ltac kept_side :=
  intros ?; unfold apply_update;
  first [ reflexivity
        | match goal with
          | |- context [tile_delta ?ti] => destruct (tile_delta ti)
          end; reflexivity ].

Ltac kept_step :=
  first
    [ apply kept_ret
    | apply kept_raise
    | apply kept_attr
    | apply kept_load_tile
    | apply kept_load_context
    | apply kept_update_tile; kept_side
    | apply kept_update_context; kept_side
    | apply kept_alloc_parameter
    | apply kept_bind; [ | intros ? ]
    | match goal with
      | |- preserves _ (match ?e with _ => _ end) => destruct e
      end
    | progress cbv beta zeta ].

Ltac kept := py_unfold_tile; repeat kept_step.

Section NoRebinding.
Context `{TileBackend}.

(** X17. A call that is neither [reset], nor the constructor, nor a
    device move, keeps every binding between a context and a tile,
    whether it returns or raises. *)
Theorem bindings_survive_other_calls o st c t :
  never_rebinds o = true ->
  bound st c t ->
  bound (exec (run_op o) st) c t.
Proof.
  intros Ho. revert st c t. change (preserves binds_kept (run_op o)).
  destruct o; try discriminate Ho; cbn [run_op].
  - unfold set_indexed. kept.
  - unfold set_data. kept.
  - unfold get_data. kept.
  - unfold has_gradient. kept.
  - unfold copy_. kept.
  - unfold deepcopy_. kept.
  - unfold forward. kept.
  - unfold backward. kept.
Qed.

End NoRebinding.

Section ToBranches.
Context `{TileBackend}.

(** X18. [to] on a context whose tile is on an accelerator: with a host
    device it converts the data and then does what [cpu] does, migrating
    the tile, emptying the traces and rebinding; with an accelerator
    device it converts the data and leaves traces and tile alone, so the
    tile stays on the accelerator it is on. *)
Theorem to_from_accelerator st self x t ti args kw d :
  objs st !! self = Some (OContext x) ->
  analog_tile x = Some t ->
  tiles st !! t = Some ti ->
  is_cuda ti = true ->
  to_device_arg args kw = Some d ->
  eval (to self args kw) st = Ok self /\
  exists x',
    objs (exec (to self args kw) st) !! self = Some (OContext x') /\
    match d with
    | Cpu =>
        data x' = tensor_cpu (tensor_to args kw (data x)) /\
        no_traces x' /\
        tiles (exec (to self args kw) st)
        = <[t := set_analog_ctx (Some self) (migrated_cpu ti)]> (tiles st)
    | Cuda _ =>
        data x' = tensor_to args kw (data x) /\
        same_but_data x x' /\
        tiles (exec (to self args kw) st) = tiles st
    end.
Proof.
  intros E Ea Et Ec Ed. unfold eval, exec, to, bound_tile. rewrite Ed.
  destruct d as [|i].
  - py_run. rewrite Ea. py_run. unfold cpu. py_run. rewrite Ea. py_run.
    py_unfold_tile. unfold reset, bound_tile. py_run.
    split; [reflexivity|].
    eexists. split; [apply lookup_insert_eq|]. repeat split.
  - py_run. rewrite Ea. py_run.
    split; [reflexivity|].
    eexists. split; [apply lookup_insert_eq|]. repeat split.
Qed.

End ToBranches.

(** ** The further properties on the test double *)

Section MoreWitnesses.
Import Demo.

Lemma host_store_lookups :
  objs host_store !! 4 = Some (OContext host_context) /\
  tiles host_store !! 7 = Some (set_analog_ctx (Some 4) host_tile).
Proof. split; vm_compute; reflexivity. Defined.

Lemma cuda_store_lookups :
  objs cuda_store !! 4 = Some (OContext cuda_context) /\
  tiles cuda_store !! 8 = Some (set_analog_ctx (Some 4) cuda_tile).
Proof. split; vm_compute; reflexivity. Defined.

Lemma cuda_migrates_and_rebinds_witness :
  bound (exec (cuda 4 (Some 1)) host_store) 4 7.
Proof.
  destruct host_store_lookups as [E Et].
  exact (proj1 (proj2 (cuda_migrates_and_rebinds host_store 4 host_context 7
                         _ (Some 1) E eq_refl Et eq_refl))).
Defined.

Lemma cuda_on_accelerator_is_noop_witness :
  cuda 4 (Some 1) cuda_store = (Ok 4, cuda_store).
Proof.
  destruct cuda_store_lookups as [E Et].
  exact (proj1 (cuda_on_accelerator_is_noop cuda_store 4 cuda_context 8
                  _ (Some 1) E eq_refl Et) eq_refl).
Defined.

Lemma cpu_migrates_and_rebinds_witness :
  bound (exec (cpu 4) cuda_store) 4 8.
Proof.
  destruct cuda_store_lookups as [E Et].
  exact (proj1 (proj2 (cpu_migrates_and_rebinds cuda_store 4 cuda_context 8
                         _ E eq_refl Et eq_refl))).
Defined.

Lemma to_accelerator_is_cuda_witness :
  exec (to 4 [ArgDevice (Cuda 1)] (mkKwargs None (Some Float16))) host_store
  = exec (cuda 4 (Some 1)) host_store.
Proof.
  destruct host_store_lookups as [E Et].
  exact (proj2 (to_accelerator_is_cuda host_store 4 host_context 7 _
                  [ArgDevice (Cuda 1)] (mkKwargs None (Some Float16)) 1
                  E eq_refl Et eq_refl eq_refl)).
Defined.

Lemma unbound_store_lookup :
  objs unbound_store !! 5 = Some (OContext unbound_context).
Proof. vm_compute. reflexivity. Defined.

Lemma to_without_device_converts_data_witness :
  eval (to 5 [ArgDtype Float16] (mkKwargs None None)) unbound_store = Ok 5.
Proof.
  exact (proj1 (to_without_device_converts_data unbound_store 5
                  unbound_context [ArgDtype Float16] (mkKwargs None None)
                  unbound_store_lookup eq_refl)).
Defined.


Lemma forward_routes_and_saves_witness :
  exists cs,
    eval (forward 4 8 x0 None false) cuda_store
    = Ok (cs, forward_out false (set_analog_ctx (Some 4) cuda_tile) x0 false) /\
    cs_saved_tensors cs = [tensor_cpu x0].
Proof.
  destruct cuda_store_lookups as [E Et].
  destruct (forward_routes_and_saves cuda_store 4 8 cuda_context _ x0 None
              false E Et)
    as (cs & _ & _ & Hev & _ & _ & Hs & _).
  exists cs. split; [exact Hev | exact Hs].
Defined.

Lemma trace_contents_after_pairs_witness :
  exists x',
    objs (exec (run_pairs 4 7 batch3) host_store) !! 4 = Some (OContext x') /\
    analog_input x' = [x0; g0; x0] /\
    analog_grad_output x' = [g0; x0; x0].
Proof.
  destruct host_store_lookups as [E Et].
  destruct (trace_contents_after_pairs host_store 4 7 host_context _ batch3
              E Et)
    as (_ & x' & Ex & Hi & Hg).
  exists x'. split; [exact Ex|]. split; [exact Hi | exact Hg].
Defined.

Lemma direct_store_lookups :
  objs direct_store !! 4
  = Some (OContext (mkContext weights true (Some 7) true false [] [])) /\
  exists ti, tiles direct_store !! 7 = Some ti.
Proof.
  split; [vm_compute; reflexivity|]. eexists. vm_compute. reflexivity.
Defined.

Lemma backward_direct_without_shared_witness :
  eval (backward (mkCall 4 7 None [] [x0]) g0) direct_store = Raise TypeError.
Proof.
  destruct direct_store_lookups as [E [ti Et]].
  exact (proj1 (backward_direct_without_shared direct_store
                  (mkCall 4 7 None [] [x0]) g0 _ ti x0 [] E Et
                  eq_refl eq_refl eq_refl)).
Defined.

Lemma has_gradient_lifecycle_witness :
  eval (r <- forward 4 7 x0 None false ;; backward (fst r) g0 ;;
        has_gradient 4) host_store = Ok true.
Proof.
  destruct host_store_lookups as [E Et].
  exact (proj1 (proj2 (has_gradient_lifecycle host_store 4 7 host_context _
                         x0 g0 false E Et))).
Defined.

Lemma nested_pairs_stay_matched_witness :
  exists x',
    objs (exec (r1 <- forward 4 7 x0 None false ;;
                r2 <- forward 4 7 g0 None false ;;
                backward (fst r2) g0 ;;
                backward (fst r1) x0) host_store) !! 4
    = Some (OContext x') /\
    analog_input x' = [g0; x0] /\
    analog_grad_output x' = [g0; x0].
Proof.
  destruct host_store_lookups as [E Et].
  exact (proj2 (nested_pairs_stay_matched host_store 4 7 host_context _
                  x0 false g0 false x0 g0 E Et)).
Defined.

Lemma construct_takes_over_tile_witness :
  exists self,
    eval (construct 7 None) host_store = Ok self /\
    bound (exec (construct 7 None) host_store) self 7 /\
    ~ bound (exec (construct 7 None) host_store) 4 7.
Proof.
  destruct host_store_lookups as [E Et].
  destruct (construct_takes_over_tile host_store 4 7 host_context _ None
              E eq_refl Et I)
    as (self & Hev & _ & Hb & _ & Hn).
  exists self. split; [exact Hev|]. split; [exact Hb | exact Hn].
Defined.

Lemma trained_store_lookups :
  objs trained_store !! 4 = Some (OContext trained_context) /\
  tiles trained_store !! 8 = Some cuda_tile /\
  exists ti, tiles trained_store !! 7 = Some ti /\ is_cuda ti = false.
Proof.
  split; [vm_compute; reflexivity|]. split; [vm_compute; reflexivity|].
  eexists. split; [vm_compute; reflexivity | reflexivity].
Defined.

Lemma copy_then_reattach_witness :
  exists r,
    eval (r <- copy_ 4 ;; construct 8 (Some r)) trained_store = Ok r /\
    objs (exec (r <- copy_ 4 ;; construct 8 (Some r)) trained_store) !! r
    = Some (OContext (mkContext weights true (Some 8) false false [] [])).
Proof.
  destruct trained_store_lookups as (E & Et & _).
  destruct (copy_then_reattach trained_store 4 trained_context 8 cuda_tile
              E Et)
    as (r & Hev & _ & Ho & _).
  exists r. split; [exact Hev | exact Ho].
Defined.

Lemma reset_is_idempotent_witness :
  exec (reset 4 (Some 8)) (exec (reset 4 (Some 8)) trained_store)
  = exec (reset 4 (Some 8)) trained_store.
Proof.
  destruct trained_store_lookups as (E & Et & _).
  exact (proj1 (proj2 (reset_is_idempotent trained_store 4 trained_context 8
                         cuda_tile E Et))).
Defined.

Lemma set_indexed_routes_both_witness :
  exists cs gi ti',
    eval (set_indexed 4 true ;;
          r <- forward 4 7 x0 None false ;; backward (fst r) g0) host_store
    = Ok (cs, mkGrads None None (Some gi) None None) /\
    tiles (exec (set_indexed 4 true ;;
                 r <- forward 4 7 x0 None false ;; backward (fst r) g0)
             host_store) !! 7 = Some ti' /\
    calls ti' = [CJointForwardIndexed x0 false; CBackwardIndexed g0].
Proof.
  destruct host_store_lookups as [E Et].
  exact (set_indexed_routes_both host_store 4 7 host_context _ true x0 g0
           false E Et).
Defined.

Lemma cuda_then_cpu_round_trip_witness :
  eval (cuda 4 None ;; cpu 4) host_store = Ok 4 /\
  bound (exec (cuda 4 None ;; cpu 4) host_store) 4 7.
Proof.
  destruct host_store_lookups as [E Et].
  destruct (cuda_then_cpu_round_trip host_store 4 host_context 7 _ None
              E eq_refl Et eq_refl)
    as (Hev & Hb & _).
  split; [exact Hev | exact Hb].
Defined.

Lemma bindings_survive_other_calls_witness :
  bound (exec (run_op (OpBackward (mkCall 4 7 None [] [x0]) g0)) host_store)
    4 7.
Proof.
  destruct host_store_lookups as [E Et].
  apply (bindings_survive_other_calls
           (OpBackward (mkCall 4 7 None [] [x0]) g0) host_store 4 7 eq_refl).
  exists host_context, (set_analog_ctx (Some 4) host_tile).
  split; [exact E|]. split; [reflexivity|]. split; [exact Et | reflexivity].
Defined.

Lemma to_from_accelerator_witness :
  eval (to 4 [ArgDevice Cpu] (mkKwargs None None)) cuda_store = Ok 4.
Proof.
  destruct cuda_store_lookups as [E Et].
  exact (proj1 (to_from_accelerator cuda_store 4 cuda_context 8 _
                  [ArgDevice Cpu] (mkKwargs None None) Cpu
                  E eq_refl Et eq_refl eq_refl)).
Defined.

End MoreWitnesses.
